(** * NN::Network (include/Network.hpp): a shallow embedding

    The class template [NN::Network<update, updateArgs...>] orchestrates a
    list of [Layer]s: forward pass ([predict], [predictVal]), backward pass
    ([backwardPass]), weight updates and the training loop ([train]), plus
    the structural setters.  Methods are embedded as computations in a
    state-and-exception monad over the object's fields; the two global loss
    registries are finite maps threaded explicitly where a method indexes
    them. *)

From Stdlib Require Import ZArith QArith String List Bool Lia.
From stdpp Require Import base option list strings gmap.

Local Close Scope Q_scope.
Local Open Scope string_scope.
Local Open Scope list_scope.

(** ** Outcomes of a call

    A method either returns, or leaves by a C++ exception, or runs into
    behaviour the language leaves undefined ([back()] or indexing on an empty
    list).  [OutOfFuel] only marks a loop that was not run to its end by the
    model. *)

Inductive exn : Type :=
| ThrowMsg (what : string)      (* [throw "..."], a string literal *)
| bad_function_call.            (* calling an empty [std::function] *)

Inductive outcome (A : Type) : Type :=
| Ok (a : A)
| Raise (e : exn)
| Undefined
| OutOfFuel.
Arguments Ok {A} a.
Arguments Raise {A} e.
Arguments Undefined {A}.
Arguments OutOfFuel {A}.

Definition forget {A} (o : outcome A) : outcome unit :=
  match o with
  | Ok _ => Ok tt
  | Raise e => Raise e
  | Undefined => Undefined
  | OutOfFuel => OutOfFuel
  end.

(** State and exceptions: the state reached when the exception leaves is
    kept, as the object keeps whatever was assigned before a [throw]. *)
Definition SE (S A : Type) : Type := S -> outcome A * S.

Definition ret {S A} (a : A) : SE S A := fun s => (Ok a, s).

Definition bind {S A B} (c : SE S A) (k : A -> SE S B) : SE S B :=
  fun s =>
    match c s with
    | (Ok a, s') => k a s'
    | (Raise e, s') => (Raise e, s')
    | (Undefined, s') => (Undefined, s')
    | (OutOfFuel, s') => (OutOfFuel, s')
    end.

Definition get {S} : SE S S := fun s => (Ok s, s).
Definition modify {S} (f : S -> S) : SE S unit := fun s => (Ok tt, f s).
Definition throw {S A} (what : string) : SE S A := fun s => (Raise (ThrowMsg what), s).
Definition undefined {S A} : SE S A := fun s => (Undefined, s).
Definition lift {S A} (o : outcome A) : SE S A := fun s => (o, s).

Declare Scope se_scope.
Delimit Scope se_scope with se.
Notation "x <- c ;; k" := (bind c (fun x => k))
  (at level 100, c at next level, right associativity) : se_scope.
Notation "c ;; k" := (bind c (fun _ => k))
  (at level 100, right associativity) : se_scope.
Local Open Scope se_scope.

(** [std::function<T>]: empty when default-constructed, and calling an empty
    one throws [std::bad_function_call]. *)
Definition std_function (T : Type) : Type := option T.

Definition call2 {S A B C} (f : std_function (A -> B -> C)) (a : A) (b : B) : SE S C :=
  match f with
  | Some g => ret (g a b)
  | None => lift (Raise bad_function_call)
  end.

(** [std::unordered_map::operator[]]: a missing key is inserted with a
    default-constructed value, and that value is returned. *)
Definition map_index {T} (m : gmap string (std_function T)) (k : string)
  : std_function T * gmap string (std_function T) :=
  match m !! k with
  | Some f => (f, m)
  | None => (None, <[k := None]> m)
  end.

(** [size_t] is taken as 64 bits wide. *)
Definition size_t_modulus : Z := 2 ^ 64.

(** ** The linear-algebra collaborator (Eigen)

    [Mat], [Vec] and [int_t] are declared in Layer.hpp, which is not part of
    the sources at hand: dense matrices and vectors are taken as an
    interface, [int_t] as a signed integer.  An Eigen constructor with sizes
    leaves the coefficients as they are in memory; [mat_sized] and
    [vec_sized] stand for whatever object that is.  [indeterminate_int] and
    [indeterminate_scalar] stand for members read before they are written. *)
Class Kernel : Type := {
  Scalar : Type;
  Mat : Type;
  Vec : Type;
  mat_rows : Mat -> Z;
  mat_cols : Mat -> Z;
  vec_size : Vec -> Z;
  mat_sized : Z -> Z -> Mat;
  vec_sized : Z -> Vec;
  vec_of_mat : Mat -> Vec;              (* [Vec v = m] *)
  vec_sub : Vec -> Vec -> Vec;          (* [a - b] *)
  vec_dot : Vec -> Vec -> Scalar;       (* [a.dot(b)] *)
  scalar_half : Scalar -> Scalar;       (* [0.5 * x] *)
  scalar_gtb : Scalar -> Scalar -> bool; (* [x > y] *)
  indeterminate_int : Z;
  indeterminate_scalar : Scalar
}.

(** ** The Layer collaborator

    Modelled from the spec: Layer.hpp is missing, so the operations the
    network calls on a layer are an interface, with the signatures the calls
    in Network.hpp have.  The spec (4.1) gives [setWeights] a shape-match
    precondition whose breach is raised, hence its [outcome]. The overload
    [backwardPass(const Layer&)] is [Layer_backwardPass_layer] below. *)
Class LayerAPI `{Kernel} : Type := {
  Layer : Type;
  Layer_new : Z * Z -> Z -> string -> Layer;     (* Layer(input_shape, num_outputs, activation) *)
  Layer_getInputShape : Layer -> Z * Z;
  Layer_getNumOutputs : Layer -> Z;
  Layer_setInputShape : Z * Z -> Layer -> Layer;
  Layer_setInputs : Mat -> Layer -> Layer;
  Layer_forwardPass : Layer -> Layer;
  Layer_getOutputs : Layer -> Mat;
  Layer_backwardPass_vec : Vec -> Layer -> Layer; (* backwardPass(loss_deriv) *)
  Layer_backwardPass_err : Mat -> Layer -> Layer; (* the chain-rule step from an error term *)
  Layer_getErr : Layer -> Mat;
  Layer_getGradient : Layer -> Mat;
  Layer_getWeights : Layer -> Mat;
  Layer_setWeights : Mat -> Layer -> outcome Layer;
  Layer_updateWeights : Layer -> Layer
}.

(** Modelled from the spec: the overload [Layer::backwardPass(const Layer&)],
    missing with Layer.hpp.  By 4.1 and 4.3 a layer that is not the last one
    consumes the error term of the layer handed to it, together with its own
    cached input. *)
Definition Layer_backwardPass_layer `{LayerAPI} (next : Layer) (l : Layer) : Layer :=
  Layer_backwardPass_err (Layer_getErr next) l.

(** ** The loss registries (lines 24-33) *)

Definition loss_fn `{Kernel} : Type := Vec -> Vec -> Scalar.
Definition loss_derivative_fn `{Kernel} : Type := Vec -> Vec -> Vec.

(** The two namespace-level maps; [operator[]] writes to them, so they are
    state. *)
Record Globals `{Kernel} : Type := mkGlobals {
  VECTOR_LOSS : gmap string (std_function loss_fn);
  VECTOR_LOSS_DERIVATIVE : gmap string (std_function loss_derivative_fn)
}.

Definition L2_loss `{Kernel} : loss_fn :=
  fun pred obs => let resid := vec_sub pred obs in scalar_half (vec_dot resid resid).

Definition L2_loss_derivative `{Kernel} : loss_derivative_fn :=
  fun pred obs => vec_sub pred obs.

Definition initial_globals `{Kernel} : Globals :=
  {| VECTOR_LOSS := {[ "L2" := Some L2_loss ]};
     VECTOR_LOSS_DERIVATIVE := {[ "L2" := Some L2_loss_derivative ]} |}.

(** What [std::cout] receives from [train]. *)
Inductive cout_event `{Kernel} : Type :=
| MaxIterWarning (loss : Scalar).
  (* "WARNING: NETWORK HIT MAX ITERATIONS IN TRAINING. SCALAR LOSS IS " << scalar_loss *)

Module Net.
Section Network.
Context {K : Kernel} {L : LayerAPI}.

(** The data members (lines 40-66).  [vector_loss] is the name that
    [setLossFunc(std::string)] assigns and [getVectorLoss] reads; the class
    declares [vector_loss_func] only, so the slot is kept apart from it. *)
Record Network : Type := mkNetwork {
  input_shape : Z * Z;
  inputs : Mat;
  num_outputs : Z;
  outputs : Vec;
  target : Vec;
  layers : list Layer;
  layer_input_shapes : list (Z * Z);
  vector_loss_func : std_function loss_fn;
  vector_loss_derivative : std_function loss_derivative_fn;
  loss_deriv : Vec;
  scalar_loss : Scalar;
  trainingLoss : list Scalar;
  resid : Vec;
  gradient : Mat;
  vector_loss : std_function loss_fn
}.

Definition M (A : Type) : Type := SE Network A.

(** Assignments to one member. *)
Definition set_input_shape v n :=
  mkNetwork v (inputs n) (num_outputs n) (outputs n) (target n) (layers n)
    (layer_input_shapes n) (vector_loss_func n) (vector_loss_derivative n)
    (loss_deriv n) (scalar_loss n) (trainingLoss n) (resid n) (gradient n) (vector_loss n).
Definition set_inputs v n :=
  mkNetwork (input_shape n) v (num_outputs n) (outputs n) (target n) (layers n)
    (layer_input_shapes n) (vector_loss_func n) (vector_loss_derivative n)
    (loss_deriv n) (scalar_loss n) (trainingLoss n) (resid n) (gradient n) (vector_loss n).
Definition set_num_outputs v n :=
  mkNetwork (input_shape n) (inputs n) v (outputs n) (target n) (layers n)
    (layer_input_shapes n) (vector_loss_func n) (vector_loss_derivative n)
    (loss_deriv n) (scalar_loss n) (trainingLoss n) (resid n) (gradient n) (vector_loss n).
Definition set_outputs v n :=
  mkNetwork (input_shape n) (inputs n) (num_outputs n) v (target n) (layers n)
    (layer_input_shapes n) (vector_loss_func n) (vector_loss_derivative n)
    (loss_deriv n) (scalar_loss n) (trainingLoss n) (resid n) (gradient n) (vector_loss n).
Definition set_target v n :=
  mkNetwork (input_shape n) (inputs n) (num_outputs n) (outputs n) v (layers n)
    (layer_input_shapes n) (vector_loss_func n) (vector_loss_derivative n)
    (loss_deriv n) (scalar_loss n) (trainingLoss n) (resid n) (gradient n) (vector_loss n).
Definition set_layers v n :=
  mkNetwork (input_shape n) (inputs n) (num_outputs n) (outputs n) (target n) v
    (layer_input_shapes n) (vector_loss_func n) (vector_loss_derivative n)
    (loss_deriv n) (scalar_loss n) (trainingLoss n) (resid n) (gradient n) (vector_loss n).
Definition set_layer_input_shapes v n :=
  mkNetwork (input_shape n) (inputs n) (num_outputs n) (outputs n) (target n) (layers n)
    v (vector_loss_func n) (vector_loss_derivative n)
    (loss_deriv n) (scalar_loss n) (trainingLoss n) (resid n) (gradient n) (vector_loss n).
Definition set_vector_loss_func v n :=
  mkNetwork (input_shape n) (inputs n) (num_outputs n) (outputs n) (target n) (layers n)
    (layer_input_shapes n) v (vector_loss_derivative n)
    (loss_deriv n) (scalar_loss n) (trainingLoss n) (resid n) (gradient n) (vector_loss n).
Definition set_vector_loss_derivative v n :=
  mkNetwork (input_shape n) (inputs n) (num_outputs n) (outputs n) (target n) (layers n)
    (layer_input_shapes n) (vector_loss_func n) v
    (loss_deriv n) (scalar_loss n) (trainingLoss n) (resid n) (gradient n) (vector_loss n).
Definition set_loss_deriv v n :=
  mkNetwork (input_shape n) (inputs n) (num_outputs n) (outputs n) (target n) (layers n)
    (layer_input_shapes n) (vector_loss_func n) (vector_loss_derivative n)
    v (scalar_loss n) (trainingLoss n) (resid n) (gradient n) (vector_loss n).
Definition set_scalar_loss v n :=
  mkNetwork (input_shape n) (inputs n) (num_outputs n) (outputs n) (target n) (layers n)
    (layer_input_shapes n) (vector_loss_func n) (vector_loss_derivative n)
    (loss_deriv n) v (trainingLoss n) (resid n) (gradient n) (vector_loss n).
Definition set_trainingLoss v n :=
  mkNetwork (input_shape n) (inputs n) (num_outputs n) (outputs n) (target n) (layers n)
    (layer_input_shapes n) (vector_loss_func n) (vector_loss_derivative n)
    (loss_deriv n) (scalar_loss n) v (resid n) (gradient n) (vector_loss n).
Definition set_resid v n :=
  mkNetwork (input_shape n) (inputs n) (num_outputs n) (outputs n) (target n) (layers n)
    (layer_input_shapes n) (vector_loss_func n) (vector_loss_derivative n)
    (loss_deriv n) (scalar_loss n) (trainingLoss n) v (gradient n) (vector_loss n).
Definition set_gradient v n :=
  mkNetwork (input_shape n) (inputs n) (num_outputs n) (outputs n) (target n) (layers n)
    (layer_input_shapes n) (vector_loss_func n) (vector_loss_derivative n)
    (loss_deriv n) (scalar_loss n) (trainingLoss n) (resid n) v (vector_loss n).
Definition set_vector_loss v n :=
  mkNetwork (input_shape n) (inputs n) (num_outputs n) (outputs n) (target n) (layers n)
    (layer_input_shapes n) (vector_loss_func n) (vector_loss_derivative n)
    (loss_deriv n) (scalar_loss n) (trainingLoss n) (resid n) (gradient n) v.

(** [xs.back().second = v] on a list of pairs; [None] when the list is
    empty, where [back()] is undefined. *)
Definition set_back_second (v : Z) (xs : list (Z * Z)) : option (list (Z * Z)) :=
  match last xs with
  | Some p => Some (<[pred (length xs) := (p.1, v)]> xs)
  | None => None
  end.

(** [xs.back().f()] for a mutating [f]. *)
Definition alter_back {A} (f : A -> A) (xs : list A) : option (list A) :=
  match last xs with
  | Some x => Some (<[pred (length xs) := f x]> xs)
  | None => None
  end.

(** *** Constructors *)

(** Lines 70-83: one implicit layer.  The member initialisers size
    [inputs], [outputs], [target] and [loss_deriv] from the two arguments;
    both registries are indexed with [loss]. *)
Definition Network_single (g : Globals) (_input_shape : Z * Z) (_num_outputs : Z)
    (activation : string) (loss : string) : Globals * Network :=
  let '(f, vl) := map_index (VECTOR_LOSS g) loss in
  let '(d, vld) := map_index (VECTOR_LOSS_DERIVATIVE g) loss in
  let finalLayer := Layer_new _input_shape _num_outputs activation in
  (mkGlobals _ vl vld,
   {| input_shape := _input_shape;
      inputs := mat_sized _input_shape.1 _input_shape.2;
      num_outputs := _num_outputs;
      outputs := vec_sized _num_outputs;
      target := vec_sized _num_outputs;
      layers := [finalLayer];
      layer_input_shapes := [_input_shape];
      vector_loss_func := f;
      vector_loss_derivative := d;
      loss_deriv := vec_sized _num_outputs;
      scalar_loss := indeterminate_scalar;
      trainingLoss := [];
      resid := vec_sized 0;
      gradient := mat_sized 0 0;
      vector_loss := None |}).

(** The body shared by the two list constructors (lines 87-92, 102-107):
    [input_shape] and [num_outputs] are read off the recorded shapes.  The
    member initialisers run before the body, with [input_shape] still
    (0, 0) and [num_outputs] not yet written. *)
Definition Network_of_list (f : std_function loss_fn) (d : std_function loss_derivative_fn)
    (_layers : list Layer) : outcome Network :=
  let shapes := map Layer_getInputShape _layers in
  match head shapes, last shapes with
  | Some first, Some back =>
      Ok {| input_shape := first;
            inputs := mat_sized 0 0;
            num_outputs := back.2;
            outputs := vec_sized indeterminate_int;
            target := vec_sized indeterminate_int;
            layers := _layers;
            layer_input_shapes := shapes;
            vector_loss_func := f;
            vector_loss_derivative := d;
            loss_deriv := vec_sized indeterminate_int;
            scalar_loss := indeterminate_scalar;
            trainingLoss := [];
            resid := vec_sized 0;
            gradient := mat_sized 0 0;
            vector_loss := None |}
  | _, _ => Undefined
  end.

(** Lines 85-93: the loss pair stays default-constructed, that is empty. *)
Definition Network_layers (_layers : list Layer) : outcome Network :=
  Network_of_list None None _layers.

(** Lines 95-108. *)
Definition Network_loss_layers (g : Globals) (activation loss : string)
    (_layers : list Layer) : Globals * outcome Network :=
  let '(f, vl) := map_index (VECTOR_LOSS g) loss in
  let '(d, vld) := map_index (VECTOR_LOSS_DERIVATIVE g) loss in
  (mkGlobals _ vl vld, Network_of_list f d _layers).

(** *** Accessors (lines 110-153) *)
Definition getLayers (n : Network) := layers n.
Definition getLayerInputShapes (n : Network) := layer_input_shapes n.
Definition getInputShape (n : Network) := input_shape n.
Definition getNumOutputs (n : Network) := num_outputs n.
Definition getOutputs (n : Network) := outputs n.
Definition getTarget (n : Network) := target n.
Definition getVectorLoss (n : Network) := vector_loss n.
Definition getScalarLoss (n : Network) := scalar_loss n.
Definition getGradient (n : Network) := gradient n.

(** *** Inputs and target (lines 155-187) *)

Definition setInputs (_inputs : Mat) (overrideInputShape : bool) : M unit :=
  if negb overrideInputShape then
    n <- get ;;
    if negb (mat_rows _inputs =? (input_shape n).1)%Z then
      throw "Error: new input matrix must have number of rows of input_shape.first"
    else if negb (mat_cols _inputs =? (input_shape n).2)%Z then
      throw "Error: new input matrix must have number of cols of input_shape.second"
    else modify (set_inputs _inputs)
  else
    modify (set_inputs _inputs) ;;
    modify (fun n => set_input_shape (mat_rows (inputs n), mat_cols (inputs n)) n) ;;
    n <- get ;;
    match layers n with                      (* layers[0].setInputs(inputs) *)
    | l :: ls => modify (set_layers (Layer_setInputs (inputs n) l :: ls))
    | [] => undefined
    end ;;
    n <- get ;;
    match layer_input_shapes n with          (* layer_input_shapes[0] = input_shape *)
    | _ :: ss => modify (set_layer_input_shapes (input_shape n :: ss))
    | [] => undefined
    end.

(** Line 177 reads the size of the member [target], the target stored so
    far, not of the argument [_target]. *)
Definition setTarget (_target : Vec) (overrideTargetSize : bool) : M unit :=
  n <- get ;;
  if negb (vec_size _target =? num_outputs n)%Z then
    if overrideTargetSize then
      modify (fun n => set_num_outputs (vec_size (target n)) n) ;;
      n <- get ;;
      match set_back_second (num_outputs n) (layer_input_shapes n) with
      | Some ss => modify (set_layer_input_shapes ss)
      | None => undefined
      end ;;
      n <- get ;;
      match last (layer_input_shapes n) with
      | Some back =>
          match alter_back (Layer_setInputShape back) (layers n) with
          | Some ls => modify (set_layers ls)
          | None => undefined
          end
      | None => undefined
      end ;;
      modify (set_target _target)
    else throw "Error: _target must have length equal to num_outputs"
  else modify (set_target _target).

(** *** Editing the layer list (lines 189-241) *)

(** The loop that rebuilds the shape list, then [x[0]] and [x.back()]. *)
Definition recompute_shapes : M unit :=
  n <- get ;;
  let new_layer_input_shapes := map Layer_getInputShape (layers n) in
  match head new_layer_input_shapes, last new_layer_input_shapes with
  | Some first, Some back =>
      modify (set_input_shape first) ;;
      modify (set_num_outputs back.2) ;;
      modify (set_layer_input_shapes new_layer_input_shapes)
  | _, _ => undefined
  end.

Definition setLayers (newLayers : list Layer) : M unit :=
  modify (set_layers newLayers) ;;
  recompute_shapes.

(** [splice] also empties the caller's list, which is no part of the
    network. *)
Definition appendLayers (newLayers : list Layer) : M unit :=
  modify (fun n => set_layer_input_shapes
                     (layer_input_shapes n ++ map Layer_getInputShape newLayers) n) ;;
  n <- get ;;
  match last (layer_input_shapes n) with
  | Some back => modify (set_num_outputs back.2)
  | None => undefined
  end ;;
  modify (fun n => set_layers (layers n ++ newLayers) n).

(** [location] is the position the iterator points at; [layers.end()] is
    the length of the list, anything beyond is no iterator of the list. *)
Definition insertLayer (location : nat) (newLayer : Layer) : M unit :=
  n <- get ;;
  if decide (location = length (layers n)) then appendLayers [newLayer]
  else if decide (location < length (layers n))%nat then
    modify (fun n => set_layers (take location (layers n) ++ newLayer :: drop location (layers n)) n) ;;
    recompute_shapes
  else undefined.

(** *** Weights (lines 243-271) *)

Definition getWeights (n : Network) : list Mat := map Layer_getWeights (layers n).

Definition getErrGradientList (n : Network) : list (Mat * Mat) :=
  map (fun l => (Layer_getErr l, Layer_getGradient l)) (layers n).

(** [for(i = 0; i < layers.size(); i++) layers[i].setWeights(weights[i])],
    with [todo] iterations left from index [i] on. *)
Fixpoint setWeights_loop (todo i : nat) (weights : list Mat) : M unit :=
  match todo with
  | O => ret tt
  | S todo' =>
      n <- get ;;
      match layers n !! i, weights !! i with
      | Some l, Some w =>
          l' <- lift (Layer_setWeights w l) ;;
          modify (set_layers (<[i := l']> (layers n)))
      | _, _ => undefined
      end ;;
      setWeights_loop todo' (S i) weights
  end.

Definition setWeights (weights : list Mat) : M unit :=
  n <- get ;;
  if negb (length weights =? length (layers n))%nat then
    throw "Error: must provide exactly one weight matrix for each layer."
  else setWeights_loop (length (layers n)) 0 weights.

(** *** The loss pair (lines 308-319) *)

Definition setLossFunc (loss : string) : SE (Globals * Network) unit :=
  fun '(g, n) =>
    let '(f, vl) := map_index (VECTOR_LOSS g) loss in
    let n := set_vector_loss f n in
    let '(d, vld) := map_index (VECTOR_LOSS_DERIVATIVE g) loss in
    let n := set_vector_loss_derivative d n in
    (Ok tt, (mkGlobals _ vl vld, n)).

Definition setLossFunc_pair (_vector_loss_func : std_function loss_fn)
    (_vector_loss_derivative : std_function loss_derivative_fn) : M unit :=
  modify (set_vector_loss_func _vector_loss_func) ;;
  modify (set_vector_loss_derivative _vector_loss_derivative).

(** *** Forward pass (lines 322-380) *)

(** The range-for of [predict]: every layer takes the output of the one
    before it; the result is the updated list and the last [layerOut]. *)
Fixpoint forward_layers (layerOut : Mat) (ls : list Layer) : list Layer * Mat :=
  match ls with
  | [] => ([], layerOut)
  | l :: rest =>
      let l := Layer_forwardPass (Layer_setInputs layerOut l) in
      let '(rest', out) := forward_layers (Layer_getOutputs l) rest in
      (l :: rest', out)
  end.

Definition predict (inputData : option Mat) (_target : option Vec) : M unit :=
  match inputData with Some m => setInputs m false | None => ret tt end ;;
  match _target with Some t => setTarget t false | None => ret tt end ;;
  n <- get ;;
  let '(ls, layerOut) := forward_layers (inputs n) (layers n) in
  modify (set_layers ls) ;;
  modify (set_outputs (vec_of_mat layerOut)) ;;
  modify (fun n => set_resid (vec_sub (outputs n) (target n)) n) ;;
  n <- get ;;
  v <- call2 (vector_loss_func n) (outputs n) (target n) ;;
  modify (set_scalar_loss v) ;;
  n <- get ;;
  d <- call2 (vector_loss_derivative n) (outputs n) (target n) ;;
  modify (set_loss_deriv d).

Definition predictVal (inputData : option Mat) (_target : option Vec) : M Vec :=
  match inputData with Some m => setInputs m false | None => ret tt end ;;
  match _target with Some t => setTarget t false | None => ret tt end ;;
  n <- get ;;
  let '(ls, layerOut) := forward_layers (inputs n) (layers n) in
  modify (set_layers ls) ;;
  modify (set_outputs (vec_of_mat layerOut)) ;;
  modify (fun n => set_resid (vec_sub (outputs n) (target n)) n) ;;
  n <- get ;;
  v <- call2 (vector_loss_func n) (outputs n) (target n) ;;
  modify (set_scalar_loss v) ;;
  n <- get ;;
  d <- call2 (vector_loss_derivative n) (outputs n) (target n) ;;
  modify (set_loss_deriv d) ;;
  n <- get ;;
  ret (outputs n).

(** *** Backward pass (lines 383-391) *)

(** [for(int_t i = layers.size()-2; i >= 0; i--)], written on [k = i + 1]:
    [backward_loop k] runs the iterations [i = k-1, ..., 0]. *)
Fixpoint backward_loop (k : nat) : M unit :=
  match k with
  | O => ret tt
  | S i =>
      n <- get ;;
      match layers n !! i, layers n !! S i with
      | Some l, Some next =>
          modify (set_layers (<[i := Layer_backwardPass_layer next l]> (layers n)))
      | _, _ => undefined
      end ;;
      backward_loop i
  end.

Definition backwardPass : M unit :=
  n <- get ;;
  match alter_back (Layer_backwardPass_vec (loss_deriv n)) (layers n) with
  | Some ls => modify (set_layers ls)
  | None => undefined
  end ;;
  n <- get ;;
  backward_loop (pred (length (layers n))) ;;
  n <- get ;;
  match layers n with
  | l :: _ => modify (set_gradient (Layer_getGradient l))
  | [] => undefined
  end.

(** *** Updates and training (lines 393-437) *)

Definition updateWeights : M unit :=
  modify (fun n => set_layers (map Layer_updateWeights (layers n)) n).

Definition record_loss : M unit :=           (* trainingLoss.push_back(scalar_loss) *)
  modify (fun n => set_trainingLoss (trainingLoss n ++ [scalar_loss n]) n).

(** The [while] of [train]; it returns the final [num_iter].  [num_iter]
    is a [size_t], so the increment wraps.  One unit of [fuel] pays for one
    round. *)
Fixpoint train_loop (fuel : nat) (stopTol : Scalar) (maxIter num_iter : Z) : M Z :=
  n <- get ;;
  if (num_iter <=? maxIter)%Z && scalar_gtb (scalar_loss n) stopTol then
    match fuel with
    | O => lift OutOfFuel
    | S fuel' =>
        predict None None ;;
        backwardPass ;;
        record_loss ;;
        updateWeights ;;
        train_loop fuel' stopTol maxIter ((num_iter + 1) mod size_t_modulus)%Z
    end
  else ret num_iter.

(** [maxIter] rounds of fuel are all the loop can use as long as
    [maxIter + 1] does not wrap. *)
Definition train (stopTol : Scalar) (maxIter : Z) (inputData : option Mat)
    (_target : option Vec) (noprint : bool) : M (list cout_event) :=
  predict inputData _target ;;
  backwardPass ;;
  record_loss ;;
  let num_iter := 1%Z in
  updateWeights ;;
  num_iter <- train_loop (Z.to_nat maxIter) stopTol maxIter num_iter ;;
  n <- get ;;
  if (num_iter =? maxIter)%Z && negb noprint then
    ret [MaxIterWarning (scalar_loss n)]
  else ret [].

(** *** The walks and rounds the statements below compare the code with *)

(** The backward walk in the words of section 4.3 of the spec: the last
    layer takes the loss gradient, every other layer the error term of the
    layer right after it. *)
Fixpoint backward_walk (g : Vec) (ls : list Layer) : list Layer :=
  match ls with
  | [] => []
  | l :: rest =>
      match backward_walk g rest with
      | [] => [Layer_backwardPass_vec g l]
      | next :: rest' => Layer_backwardPass_err (Layer_getErr next) l :: next :: rest'
      end
  end.

(** The same walk over a prefix [pre], onto a suffix that is done. *)
Definition walk_onto (pre done : list Layer) : list Layer :=
  foldr (fun l acc =>
           match acc with
           | next :: _ => Layer_backwardPass_layer next l :: acc
           | [] => acc
           end) done pre.

(** One forward/backward/update step with the loss recorded: the body of
    the [while] in [train]. *)
Definition training_round : M unit :=
  predict None None ;; backwardPass ;; record_loss ;; updateWeights.

(** The first, unconditional step of [train]. *)
Definition first_round (inputData : option Mat) (_target : option Vec) : M unit :=
  predict inputData _target ;; backwardPass ;; record_loss ;; updateWeights.

(** The two halves of [predict] and [predictVal], named to reason about
    them one at a time: the optional arguments, then the pass itself. *)
Definition take_arguments (inputData : option Mat) (_target : option Vec) : M unit :=
  match inputData with Some m => setInputs m false | None => ret tt end ;;
  match _target with Some t => setTarget t false | None => ret tt end.

Definition forward_and_loss : M unit :=
  n <- get ;;
  let '(ls, layerOut) := forward_layers (inputs n) (layers n) in
  modify (set_layers ls) ;;
  modify (set_outputs (vec_of_mat layerOut)) ;;
  modify (fun n => set_resid (vec_sub (outputs n) (target n)) n) ;;
  n <- get ;;
  v <- call2 (vector_loss_func n) (outputs n) (target n) ;;
  modify (set_scalar_loss v) ;;
  n <- get ;;
  d <- call2 (vector_loss_derivative n) (outputs n) (target n) ;;
  modify (set_loss_deriv d).

(** One recorded shape per layer, in the order of the layers. *)
Definition shapes_in_sync (n : Network) : Prop :=
  layer_input_shapes n = map Layer_getInputShape (layers n).

(** The first layer's declared input shape is the network's. *)
Definition first_shape_ok (n : Network) : Prop :=
  Layer_getInputShape <$> head (layers n) = Some (input_shape n).

(** The last layer's output width is the network's number of outputs. *)
Definition output_width_ok (n : Network) : Prop :=
  Layer_getNumOutputs <$> last (layers n) = Some (num_outputs n).

(** The number of outputs is the second component of the last layer's
    declared input shape: what lines 92, 107, 201, 214 and 237 assign. *)
Definition output_count_recorded (n : Network) : Prop :=
  (fun l => (Layer_getInputShape l).2) <$> last (layers n) = Some (num_outputs n).

(** Modelled from the spec: the constructor of the missing [Layer] keeps
    the input shape and output width it is created with (section 3). *)
Definition Layer_new_contract : Prop :=
  forall shape n_out activation,
    Layer_getInputShape (Layer_new shape n_out activation) = shape /\
    Layer_getNumOutputs (Layer_new shape n_out activation) = n_out.

(** The input matrix does not have the declared input shape. *)
Definition shape_mismatch (m : Mat) (n : Network) : Prop :=
  mat_rows m ≠ (input_shape n).1 ∨ mat_cols m ≠ (input_shape n).2.

End Network.
End Net.

(** ** A dense layer over the rationals

  Modelled from the spec: Layer.hpp and the Eigen types are missing, so
  this instance of the two interfaces follows sections 3, 4.1 and 8 of the
  spec: a layer holds its declared input shape, output width, weights,
  cached input and output, error term and parameter gradient; [forward]
  multiplies weights and input (identity activation), [backward] combines
  what it is handed with the cached input, and the update is the fixed-step
  rule.  Scalars are exact rationals.  It serves to run the network on
  concrete data. *)
Module Dense.

Record QMat : Type := mkQMat { qrows : Z; qcols : Z; qdata : list Q }.

Definition entry (m : QMat) (i j : nat) : Q :=
  nth (i * Z.to_nat (qcols m) + j) (qdata m) 0%Q.

Definition build (r c : Z) (f : nat -> nat -> Q) : QMat :=
  mkQMat r c
    (concat (map (fun i => map (f i) (seq 0 (Z.to_nat c))) (seq 0 (Z.to_nat r)))).

Definition qsum (xs : list Q) : Q := fold_right Qplus 0%Q xs.

Definition matmul (a b : QMat) : QMat :=
  build (qrows a) (qcols b)
    (fun i j => qsum (map (fun k => (entry a i k * entry b k j)%Q) (seq 0 (Z.to_nat (qcols a))))).

Definition transpose (a : QMat) : QMat :=
  build (qcols a) (qrows a) (fun i j => entry a j i).

Definition constant (r c : Z) (x : Q) : QMat := build r c (fun _ _ => x).

Definition column (v : list Q) : QMat := mkQMat (Z.of_nat (length v)) 1 v.

#[export] Instance kernel : Kernel := {|
  Scalar := Q;
  Mat := QMat;
  Vec := list Q;
  mat_rows := qrows;
  mat_cols := qcols;
  vec_size := fun v => Z.of_nat (length v);
  mat_sized := fun r c => constant r c 0%Q;
  vec_sized := fun n => repeat 0%Q (Z.to_nat n);
  vec_of_mat := qdata;
  vec_sub := fun a b => zip_with Qminus a b;
  vec_dot := fun a b => qsum (zip_with Qmult a b);
  scalar_half := fun x => ((1 # 2) * x)%Q;
  scalar_gtb := fun x y => negb (Qle_bool x y);
  indeterminate_int := 0%Z;
  indeterminate_scalar := 0%Q
|}.

Record DenseLayer : Type := mkDense {
  d_input_shape : Z * Z;
  d_num_outputs : Z;
  d_weights : QMat;
  d_inputs : QMat;
  d_outputs : QMat;
  d_err : QMat;
  d_gradient : QMat;
  d_activation : string;
  d_rate : Q
}.

Definition new (shape : Z * Z) (n_out : Z) (activation : string) : DenseLayer :=
  {| d_input_shape := shape;
     d_num_outputs := n_out;
     d_weights := constant n_out shape.1 1%Q;
     d_inputs := constant shape.1 shape.2 0%Q;
     d_outputs := constant n_out shape.2 0%Q;
     d_err := constant 0 0 0%Q;
     d_gradient := constant 0 0 0%Q;
     d_activation := activation;
     d_rate := (1 # 10)%Q |}.

Definition with_weights (w : QMat) (l : DenseLayer) : DenseLayer :=
  mkDense (d_input_shape l) (d_num_outputs l) w (d_inputs l) (d_outputs l)
    (d_err l) (d_gradient l) (d_activation l) (d_rate l).

Definition forward (l : DenseLayer) : DenseLayer :=
  mkDense (d_input_shape l) (d_num_outputs l) (d_weights l) (d_inputs l)
    (matmul (d_weights l) (d_inputs l))
    (d_err l) (d_gradient l) (d_activation l) (d_rate l).

(** [upstream] is the loss gradient (last layer) or the error term of the
    next layer; the error term handed on is already pulled back through
    this layer's weights. *)
Definition backward (upstream : QMat) (l : DenseLayer) : DenseLayer :=
  mkDense (d_input_shape l) (d_num_outputs l) (d_weights l) (d_inputs l) (d_outputs l)
    (matmul (transpose (d_weights l)) upstream)
    (matmul upstream (transpose (d_inputs l)))
    (d_activation l) (d_rate l).

Definition update (l : DenseLayer) : DenseLayer :=
  with_weights
    (mkQMat (qrows (d_weights l)) (qcols (d_weights l))
       (zip_with (fun w g => (w - d_rate l * g)%Q) (qdata (d_weights l)) (qdata (d_gradient l))))
    l.

Definition set_weights (w : QMat) (l : DenseLayer) : outcome DenseLayer :=
  if ((qrows w =? qrows (d_weights l)) && (qcols w =? qcols (d_weights l)))%Z
  then Ok (with_weights w l)
  else Raise (ThrowMsg "Error: weight matrix does not match the layer's shape").

#[export] Instance layer : LayerAPI := {|
  Layer := DenseLayer;
  Layer_new := new;
  Layer_getInputShape := d_input_shape;
  Layer_getNumOutputs := d_num_outputs;
  Layer_setInputShape := fun s l =>
    mkDense s (d_num_outputs l) (d_weights l) (d_inputs l) (d_outputs l)
      (d_err l) (d_gradient l) (d_activation l) (d_rate l);
  Layer_setInputs := fun m l =>
    mkDense (d_input_shape l) (d_num_outputs l) (d_weights l) m (d_outputs l)
      (d_err l) (d_gradient l) (d_activation l) (d_rate l);
  Layer_forwardPass := forward;
  Layer_getOutputs := d_outputs;
  Layer_backwardPass_vec := fun v => backward (column v);
  Layer_backwardPass_err := backward;
  Layer_getErr := d_err;
  Layer_getGradient := d_gradient;
  Layer_getWeights := d_weights;
  Layer_setWeights := set_weights;
  Layer_updateWeights := update
|}.

(** The network right after [Network net({1, 1}, 1, "identity")]. *)
Definition fresh : Net.Network :=
  (Net.Network_single initial_globals (1, 1)%Z 1%Z "identity" "L2").2.

(** The single-layer scenario of section 8 of the spec: the 1x1 input 3,
    the target 6, the weight 1 (the layer is created with it). *)
Definition scenario : Net.Network :=
  ((Net.setInputs (mkQMat 1 1 [3%Q]) false ;; Net.setTarget [6%Q] false)%se fresh).2.

(** Two layers, 2x1 input, widths 3 and 1, after one forward pass on the
    input (1, 2) with target 5. *)
Definition two_layers : list DenseLayer :=
  [new (2, 1)%Z 3%Z "identity"; new (3, 1)%Z 1%Z "identity"].

Definition two_layer_net : Net.Network :=
  match (Net.Network_loss_layers initial_globals "identity" "L2" two_layers).2 with
  | Ok n => (Net.predict (Some (mkQMat 2 1 [1%Q; 2%Q])) (Some [5%Q]) n).2
  | _ => fresh
  end.

(** One layer whose declared input shape is 1x3 and whose output width
    is 2. *)
Definition wide_layer : DenseLayer := new (1, 3)%Z 2%Z "identity".

(** [Network net({2, 3}, 1, "identity")]. *)
Definition fresh_2x3 : Net.Network :=
  (Net.Network_single initial_globals (2, 3)%Z 1%Z "identity" "L2").2.

End Dense.

(** ** Hyperparameters and activations (lines 272-296, 400-410)

    Modelled from the spec: the members of the missing [Layer] that these
    methods call.  [UpdateArgs] is the tuple of the template's
    [updateArgs...]; [setUpdateParams] is called by the variadic overload,
    [setUpdateArgs] by the per-layer one. *)
Class LayerTuning `{LayerAPI} : Type := {
  UpdateArgs : Type;
  Layer_setUpdateParams : UpdateArgs -> Layer -> Layer;
  Layer_setUpdateArgs : UpdateArgs -> Layer -> Layer;
  Layer_setActivation : string -> Layer -> Layer
}.

Module NetTuning.
Import Net.
Section Tuning.
Context {K : Kernel} {L : LayerAPI} {T : LayerTuning}.

(** Lines 273-278: the same arguments for every layer. *)
Definition setUpdateParams (args : UpdateArgs) : M unit :=
  modify (fun n => set_layers (map (Layer_setUpdateParams args) (layers n)) n).

(** [for(i = 0; i < argsList.size(); i++) std::apply(layers[i].setUpdateArgs, argsList[i])],
    with [todo] iterations left from index [i] on. *)
Fixpoint setUpdateParams_loop (todo i : nat) (argsList : list UpdateArgs) : M unit :=
  match todo with
  | O => ret tt
  | S todo' =>
      n <- get ;;
      match layers n !! i, argsList !! i with
      | Some l, Some args => modify (set_layers (<[i := Layer_setUpdateArgs args l]> (layers n)))
      | _, _ => undefined
      end ;;
      setUpdateParams_loop todo' (S i) argsList
  end.

(** Lines 280-288: one tuple per layer. *)
Definition setUpdateParams_list (argsList : list UpdateArgs) : M unit :=
  n <- get ;;
  if negb (length argsList =? length (layers n))%nat then
    throw "Error: must provide exactly one args tuple for each layer."
  else setUpdateParams_loop (length argsList) 0 argsList.

(** Lines 291-296: the same activation for every layer. *)
Definition setActivations (activations : string) : M unit :=
  modify (fun n => set_layers (map (Layer_setActivation activations) (layers n)) n).

(** Lines 400-404. *)
Definition updateWeights_list (argsList : list UpdateArgs) : M unit :=
  setUpdateParams_list argsList ;;
  updateWeights.

(** Lines 406-410. *)
Definition updateWeights_args (args : UpdateArgs) : M unit :=
  setUpdateParams args ;;
  updateWeights.

(** What the network records about its topology and loss: the input
    shape, the number of outputs, the recorded layer shapes, the number of
    layers and the loss pair. *)
Definition bookkeeping (n : Network) :=
  (input_shape n, num_outputs n, layer_input_shapes n, length (layers n),
   (vector_loss_func n, vector_loss_derivative n)).

End Tuning.
End NetTuning.

Module DenseTuning.
Import Dense.

(** Modelled from the spec: the fixed-step rule has one hyperparameter,
    the rate. *)
Definition with_rate (r : Q) (l : DenseLayer) : DenseLayer :=
  mkDense (d_input_shape l) (d_num_outputs l) (d_weights l) (d_inputs l) (d_outputs l)
    (d_err l) (d_gradient l) (d_activation l) r.

Definition with_activation (a : string) (l : DenseLayer) : DenseLayer :=
  mkDense (d_input_shape l) (d_num_outputs l) (d_weights l) (d_inputs l) (d_outputs l)
    (d_err l) (d_gradient l) a (d_rate l).

#[export] Instance tuning : LayerTuning := {|
  UpdateArgs := Q;
  Layer_setUpdateParams := with_rate;
  Layer_setUpdateArgs := with_rate;
  Layer_setActivation := with_activation
|}.

(** The two-layer network as the list constructor with a loss name leaves
    it. *)
Definition two_layer_fresh : Net.Network :=
  match (Net.Network_loss_layers initial_globals "identity" "L2" two_layers).2 with
  | Ok n => n
  | _ => fresh
  end.

Definition input_2x1 : QMat := mkQMat 2 1 [1%Q; 2%Q].

End DenseTuning.

(** ** Properties of the network methods *)
Module NetProps.
Import Net.
Section Props.
Context {K : Kernel} {L : LayerAPI}.

Ltac se_unfold :=
  unfold bind, get, modify, ret, throw, undefined, lift, call2 in *.

Ltac break_match :=
  match goal with
  | |- context [match ?x with _ => _ end] => destruct x eqn:?
  end.

Lemma bind_Ok {S A B} (c : SE S A) (k : A -> SE S B) s a s' :
  c s = (Ok a, s') -> bind c k s = k a s'.
Proof. intros E. unfold bind. by rewrite E. Qed.

Lemma bind_assoc {S A B C} (c : SE S A) (f : A -> SE S B) (g : B -> SE S C) s :
  bind (bind c f) g s = bind c (fun a => bind (f a) g) s.
Proof. unfold bind. by destruct (c s) as [[a|e| |] s1]. Qed.

Lemma bind_inv_Ok {S A B} (c : SE S A) (k : A -> SE S B) s b s' :
  bind c k s = (Ok b, s') ->
  exists a s1, c s = (Ok a, s1) /\ k a s1 = (Ok b, s').
Proof. unfold bind. destruct (c s) as [[a|e| |] s1]; intros H; by eauto. Qed.

Lemma bind_assoc4 {S A1 A2 A3 A4 B} (c1 : SE S A1) (c2 : SE S A2) (c3 : SE S A3)
    (c4 : SE S A4) (k : SE S B) s :
  (c1 ;; c2 ;; c3 ;; c4 ;; k) s = ((c1 ;; c2 ;; c3 ;; c4) ;; k) s.
Proof.
  unfold bind.
  destruct (c1 s) as [[a1|e| |] s1]; try done.
  destruct (c2 s1) as [[a2|e| |] s2]; try done.
  destruct (c3 s2) as [[a3|e| |] s3]; try done.
Qed.

(** *** The backward walk *)

Lemma walk_onto_snoc pre l done :
  walk_onto (pre ++ [l]) done = walk_onto pre (walk_onto [l] done).
Proof. unfold walk_onto. by rewrite foldr_app. Qed.

Lemma walk_onto_length pre done : length (walk_onto pre done) = (length pre + length done)%nat
  \/ done = [].
Proof.
  destruct done as [|d ds]; [by right | left].
  induction pre as [|l pre IH]; [done |].
  simpl in *. destruct (walk_onto pre (d :: ds)) eqn:E; simpl in *; lia.
Qed.

Lemma walk_onto_nonempty pre d ds : walk_onto pre (d :: ds) <> [].
Proof.
  destruct pre as [|l pre]; [done |]. simpl.
  destruct (walk_onto pre (d :: ds)) eqn:E; [|done].
  destruct (walk_onto_length pre (d :: ds)) as [H|H]; [|done].
  rewrite E in H. simpl in H. lia.
Qed.

Lemma backward_loop_spec k : forall n pre d ds,
  layers n = pre ++ d :: ds -> length pre = k ->
  backward_loop k n = (Ok tt, set_layers (walk_onto pre (d :: ds)) n).
Proof.
  induction k as [|i IH]; intros n pre d ds Hl Hk.
  - destruct pre; [|done]. simpl in *. rewrite <- Hl. by destruct n.
  - destruct (decide (pre = [])) as [->|Hne]; [done |].
    destruct (exists_last Hne) as [pre' [l ->]].
    rewrite length_app in Hk. simpl in Hk.
    assert (Hi : length pre' = i) by lia.
    rewrite <- app_assoc in Hl. simpl in Hl.
    simpl. se_unfold.
    assert (H1 : layers n !! i = Some l).
    { rewrite Hl, lookup_app_r by lia. by replace (i - length pre')%nat with 0%nat by lia. }
    assert (H2 : layers n !! S i = Some d).
    { rewrite Hl, lookup_app_r by lia. by replace (S i - length pre')%nat with 1%nat by lia. }
    rewrite H1, H2.
    rewrite (IH _ pre' (Layer_backwardPass_layer d l) (d :: ds)); [| | done].
    + by rewrite walk_onto_snoc.
    + simpl. rewrite Hl. subst i.
      rewrite insert_app_r_alt by lia.
      by replace (length pre' - length pre')%nat with 0%nat by lia.
Qed.

Lemma backward_walk_snoc g pre l :
  backward_walk g (pre ++ [l]) = walk_onto pre [Layer_backwardPass_vec g l].
Proof.
  induction pre as [|x pre IH]; [done |].
  simpl. rewrite IH.
  destruct (walk_onto pre [Layer_backwardPass_vec g l]) eqn:E; [|done].
  by apply walk_onto_nonempty in E.
Qed.

Lemma alter_back_snoc {A} (f : A -> A) pre (x : A) :
  alter_back f (pre ++ [x]) = Some (pre ++ [f x]).
Proof.
  unfold alter_back. rewrite last_snoc, length_app. simpl.
  replace (pred (length pre + 1)) with (length pre + 0)%nat by lia.
  by rewrite insert_app_r.
Qed.

(** What [backwardPass] computes on a network with at least one layer. *)
Lemma backwardPass_eq n :
  layers n <> [] ->
  exists l' ls',
    backward_walk (loss_deriv n) (layers n) = l' :: ls' /\
    backwardPass n = (Ok tt, set_gradient (Layer_getGradient l') (set_layers (l' :: ls') n)).
Proof.
  intros Hne. destruct (exists_last Hne) as [pre [l Hl]].
  pose proof (backward_walk_snoc (loss_deriv n) pre l) as Hw.
  destruct (walk_onto pre [Layer_backwardPass_vec (loss_deriv n) l]) as [|l' ls'] eqn:E.
  { by apply walk_onto_nonempty in E. }
  exists l', ls'. rewrite Hl. split; [done |].
  unfold backwardPass. se_unfold. rewrite Hl, alter_back_snoc. simpl.
  rewrite (backward_loop_spec _ _ pre (Layer_backwardPass_vec (loss_deriv n) l) []);
    [| done | rewrite length_app; simpl; lia].
  simpl. by rewrite E.
Qed.

Lemma backward_walk_length g ls : length (backward_walk g ls) = length ls.
Proof.
  induction ls as [|l ls IH]; [done |].
  simpl. destruct (backward_walk g ls) eqn:E; simpl in *; [|lia].
  by rewrite <- IH.
Qed.

Lemma backward_walk_last g ls :
  last (backward_walk g ls) = Layer_backwardPass_vec g <$> last ls.
Proof.
  induction ls as [|l ls IH]; [done |].
  pose proof (backward_walk_length g ls) as Hlen.
  simpl. destruct (backward_walk g ls) as [|x xs] eqn:E.
  - destruct ls; [done | simpl in Hlen; lia].
  - destruct ls as [|l2 ls]; [simpl in Hlen; lia |].
    change (last (l :: l2 :: ls)) with (last (l2 :: ls)). rewrite <- IH.
    by destruct xs.
Qed.

Lemma backward_walk_lookup g ls : forall i l next',
  ls !! i = Some l ->
  backward_walk g ls !! S i = Some next' ->
  backward_walk g ls !! i = Some (Layer_backwardPass_err (Layer_getErr next') l).
Proof.
  induction ls as [|x ls IH]; intros i l next' Hi Hn; [done |].
  simpl in *. destruct (backward_walk g ls) as [|y ys] eqn:E.
  - destruct i; simpl in *; done.
  - destruct i as [|i]; simpl in *.
    + congruence.
    + by apply IH.
Qed.

(** *** The forward pass *)

Lemma predict_unfold i t n :
  predict i t n = (take_arguments i t ;; forward_and_loss) n.
Proof.
  unfold predict, take_arguments, forward_and_loss.
  by rewrite bind_assoc.
Qed.

Lemma predictVal_unfold i t n :
  predictVal i t n
  = (take_arguments i t ;; forward_and_loss ;; n <- get ;; ret (outputs n)) n.
Proof.
  unfold predictVal, take_arguments, forward_and_loss.
  rewrite bind_assoc. unfold bind.
  repeat (break_match; try done).
Qed.

(** What a successful pass leaves: the layers run forward from the inputs,
    and the loss and its gradient taken at the new outputs. *)
Lemma forward_and_loss_Ok n n' :
  forward_and_loss n = (Ok tt, n') ->
  exists f d,
    vector_loss_func n = Some f /\
    vector_loss_derivative n = Some d /\
    let fl := forward_layers (inputs n) (layers n) in
    let out := vec_of_mat fl.2 in
    n' = set_loss_deriv (d out (target n))
           (set_scalar_loss (f out (target n))
              (set_resid (vec_sub out (target n))
                 (set_outputs out (set_layers fl.1 n)))).
Proof.
  unfold forward_and_loss. se_unfold. simpl.
  destruct (forward_layers (inputs n) (layers n)) as [ls out] eqn:Ef. simpl.
  destruct (vector_loss_func n) as [f|]; [|done]. simpl.
  destruct (vector_loss_derivative n) as [d|]; [|done]. simpl.
  intros H. exists f, d. repeat split. by inversion H.
Qed.

Lemma predict_Ok i t n n' :
  predict i t n = (Ok tt, n') ->
  exists n1, take_arguments i t n = (Ok tt, n1) /\ forward_and_loss n1 = (Ok tt, n').
Proof.
  rewrite predict_unfold. intros H.
  apply bind_inv_Ok in H as ([] & n1 & H1 & H2). eauto.
Qed.

(** *** Arity of the weight list *)

Lemma setWeights_wrong_length weights n :
  length weights <> length (layers n) ->
  setWeights weights n
  = (Raise (ThrowMsg "Error: must provide exactly one weight matrix for each layer."), n).
Proof.
  intros Hne. unfold setWeights. se_unfold.
  destruct (Nat.eqb_spec (length weights) (length (layers n))); [done |]. done.
Qed.

(** *** Shape checks on the forward pass *)

Lemma setInputs_mismatch m n :
  shape_mismatch m n -> exists what, setInputs m false n = (Raise (ThrowMsg what), n).
Proof.
  intros Hm. unfold setInputs. se_unfold. simpl.
  destruct (Z.eqb_spec (mat_rows m) (input_shape n).1); simpl; [|by eexists].
  destruct (Z.eqb_spec (mat_cols m) (input_shape n).2); simpl; [|by eexists].
  destruct Hm; done.
Qed.

Lemma setInputs_checked_input_shape m n :
  input_shape (setInputs m false n).2 = input_shape n.
Proof. unfold setInputs. se_unfold. simpl. by repeat break_match. Qed.

Lemma setTarget_checked_frame v n :
  let n' := (setTarget v false n).2 in
  input_shape n' = input_shape n /\ num_outputs n' = num_outputs n /\
  layers n' = layers n /\ layer_input_shapes n' = layer_input_shapes n.
Proof. unfold setTarget. se_unfold. simpl. by repeat break_match. Qed.

(** *** Frames *)

Lemma bind_preserves {S A B X} (f : S -> X) (c : SE S A) (k : A -> SE S B) :
  (forall s, f (c s).2 = f s) -> (forall a s, f (k a s).2 = f s) ->
  forall s, f (bind c k s).2 = f s.
Proof.
  intros Hc Hk s. unfold bind. specialize (Hc s).
  destruct (c s) as [[a|e| |] s1]; simpl in *; try done.
  by rewrite Hk.
Qed.

Lemma forget_unit (o : outcome unit) : forget o = o.
Proof. by destruct o as [[]| | |]. Qed.

Lemma bind_get_ret {S A B} (c : SE S A) (h : S -> B) s :
  let r := bind c (fun _ => s' <- get ;; ret (h s')) s in
  r.2 = (c s).2 /\ forget r.1 = forget (c s).1 /\ (forall v, r.1 = Ok v -> v = h r.2).
Proof.
  unfold bind, get, ret. destruct (c s) as [[a|e| |] s1]; simpl; repeat split; try done.
  intros v Hv. by inversion Hv.
Qed.

Lemma take_arguments_input_shape i t n :
  input_shape (take_arguments i t n).2 = input_shape n.
Proof.
  unfold take_arguments.
  apply (bind_preserves input_shape); clear n.
  - intros n. destruct i; [apply setInputs_checked_input_shape | done].
  - intros _ n. destruct t; [apply setTarget_checked_frame | done].
Qed.

Lemma forward_and_loss_input_shape n :
  input_shape (forward_and_loss n).2 = input_shape n.
Proof.
  unfold forward_and_loss. se_unfold. simpl.
  destruct (forward_layers (inputs n) (layers n)) as [ls out]. simpl.
  destruct (vector_loss_func n); simpl; [|done].
  by destruct (vector_loss_derivative n).
Qed.

Lemma predict_input_shape i t n : input_shape (predict i t n).2 = input_shape n.
Proof.
  rewrite predict_unfold. revert n. apply (bind_preserves input_shape).
  - apply take_arguments_input_shape.
  - intros _. apply forward_and_loss_input_shape.
Qed.

Lemma predictVal_as_predict i t n :
  predictVal i t n = (predict i t ;; n <- get ;; ret (outputs n)) n.
Proof.
  rewrite predictVal_unfold.
  rewrite <- (bind_assoc (take_arguments i t) (fun _ => forward_and_loss)).
  unfold bind at 1 4. by rewrite predict_unfold.
Qed.

Lemma predict_predictVal_frame i t n :
  (predictVal i t n).2 = (predict i t n).2 /\ forget (predictVal i t n).1 = (predict i t n).1.
Proof.
  rewrite predictVal_as_predict.
  destruct (bind_get_ret (predict i t) outputs n) as (H1 & H2 & _).
  split; [done |]. by rewrite H2, forget_unit.
Qed.

(** *** The statements *)

(** C1: on a network with at least one layer [backwardPass] returns; the
    last layer has run its backward step on the network's loss-gradient
    vector [loss_deriv], every layer before it has run its step on the
    error term of the (already processed) layer right after it, and the
    network's [gradient] is the parameter gradient of the first layer;
    nothing else changes. After a successful [predict], [loss_deriv] is
    the registered derivative taken at the outputs and target of that
    pass. *)
Theorem backwardPass_walks_last_to_first n :
  layers n <> [] ->
  exists n',
    backwardPass n = (Ok tt, n') /\
    n' = set_gradient (gradient n') (set_layers (layers n') n) /\
    length (layers n') = length (layers n) /\
    last (layers n') = Layer_backwardPass_vec (loss_deriv n) <$> last (layers n) /\
    (forall i l next',
        layers n !! i = Some l -> layers n' !! S i = Some next' ->
        layers n' !! i = Some (Layer_backwardPass_err (Layer_getErr next') l)) /\
    Layer_getGradient <$> head (layers n') = Some (gradient n') /\
    (forall n0 i t, predict i t n0 = (Ok tt, n) ->
        exists d, vector_loss_derivative n = Some d /\
                  loss_deriv n = d (outputs n) (target n)).
Proof.
  intros Hne. destruct (backwardPass_eq n Hne) as (l' & ls' & Hw & Hb).
  exists (set_gradient (Layer_getGradient l') (set_layers (l' :: ls') n)).
  split; [exact Hb |].
  change (layers (set_gradient (Layer_getGradient l') (set_layers (l' :: ls') n)))
    with (l' :: ls').
  rewrite <- Hw. repeat split.
  - apply backward_walk_length.
  - apply backward_walk_last.
  - intros i l next'. apply backward_walk_lookup.
  - by rewrite Hw.
  - intros n0 i t Hp.
    apply predict_Ok in Hp as (n1 & _ & Hf).
    apply forward_and_loss_Ok in Hf as (f & d & _ & Hd & ->).
    by exists d.
Qed.


(** C5: a weight list whose length differs from the number of layers makes
    [setWeights] throw before any layer is touched: the network is left as
    it was, and [getWeights] returns the same list after the failed call. *)
Theorem setWeights_arity_mismatch weights n :
  length weights <> length (layers n) ->
  setWeights weights n
  = (Raise (ThrowMsg "Error: must provide exactly one weight matrix for each layer."), n)
  /\ getWeights (setWeights weights n).2 = getWeights n.
Proof.
  intros Hne. by rewrite (setWeights_wrong_length _ _ Hne).
Qed.

(** C8: [predict] and [predictVal] leave the same network state (layers,
    outputs, residual, scalar loss, loss gradient and all the rest) and
    end the same way, for every state and every choice of the optional
    arguments; [predictVal] returns the stored outputs on top. *)
Theorem predict_predictVal_same_effects i t n :
  (predictVal i t n).2 = (predict i t n).2 /\
  forget (predictVal i t n).1 = (predict i t n).1 /\
  (forall v, (predictVal i t n).1 = Ok v -> v = outputs (predictVal i t n).2).
Proof.
  rewrite predictVal_as_predict.
  destruct (bind_get_ret (predict i t) outputs n) as (H1 & H2 & H3).
  repeat split; [done | | done].
  by rewrite H2, forget_unit.
Qed.

(** C10: an input matrix that does not have the declared input shape makes
    [predict] and [predictVal] throw with the network unchanged; and no
    call of either, whatever its arguments and outcome, changes the
    network's input shape. *)
Theorem predict_rejects_mismatched_input :
  (forall n m t, shape_mismatch m n ->
     (exists what, predict (Some m) t n = (Raise (ThrowMsg what), n)) /\
     (exists what, predictVal (Some m) t n = (Raise (ThrowMsg what), n))) /\
  (forall n i t,
     input_shape (predict i t n).2 = input_shape n /\
     input_shape (predictVal i t n).2 = input_shape n).
Proof.
  split.
  - intros n m t Hm. destruct (setInputs_mismatch m n Hm) as [what Hs].
    split; exists what.
    + unfold predict, bind. by rewrite Hs.
    + unfold predictVal, bind. by rewrite Hs.
  - intros n i t.
    destruct (predict_predictVal_frame i t n) as [-> _].
    split; apply predict_input_shape.
Qed.

(** *** Unknown loss names *)

Lemma map_index_miss {T} (m : gmap string (std_function T)) k :
  m !! k = None -> map_index m k = (None, <[k := None]> m).
Proof. intros H. unfold map_index. by rewrite H. Qed.

Lemma predict_empty_loss n :
  vector_loss_func n = None -> (predict None None n).1 = Raise bad_function_call.
Proof.
  intros H. unfold predict. se_unfold. simpl.
  destruct (forward_layers (inputs n) (layers n)) as [ls out]. simpl.
  by rewrite H.
Qed.

(** C4 (as amended): for a loss name in neither registry, construction and
    [setLossFunc] raise nothing.  Indexing the registries inserts an empty
    function under that name and hands it to the network: the constructed
    network has an empty loss pair (its first [predict] ends in
    [bad_function_call]), and [setLossFunc] overwrites the stored
    derivative and the [vector_loss] slot with empty functions. *)
Theorem unknown_loss_name_installs_empty_function g loss :
  VECTOR_LOSS g !! loss = None ->
  VECTOR_LOSS_DERIVATIVE g !! loss = None ->
  let g' := mkGlobals _ (<[loss := None]> (VECTOR_LOSS g))
                        (<[loss := None]> (VECTOR_LOSS_DERIVATIVE g)) in
  (forall n, setLossFunc loss (g, n)
             = (Ok tt, (g', set_vector_loss_derivative None (set_vector_loss None n)))) /\
  (forall shape n_out activation,
      exists n, Network_single g shape n_out activation loss = (g', n) /\
                layers n = [Layer_new shape n_out activation] /\
                vector_loss_func n = None /\ vector_loss_derivative n = None /\
                (predict None None n).1 = Raise bad_function_call) /\
  (forall activation _layers,
      Network_loss_layers g activation loss _layers
      = (g', Network_of_list None None _layers)).
Proof.
  intros H1 H2 g'. repeat split.
  - intros n. unfold setLossFunc.
    by rewrite (map_index_miss _ _ H1), (map_index_miss _ _ H2).
  - intros shape n_out activation. unfold Network_single.
    rewrite (map_index_miss _ _ H1), (map_index_miss _ _ H2).
    eexists. split; [reflexivity |].
    do 3 (split; [reflexivity |]). by apply predict_empty_loss.
  - intros activation _layers. unfold Network_loss_layers.
    by rewrite (map_index_miss _ _ H1), (map_index_miss _ _ H2).
Qed.

(** *** The target override *)

Lemma set_back_second_Some v (xs : list (Z * Z)) :
  xs <> [] -> exists pre p, xs = pre ++ [p] /\ set_back_second v xs = Some (pre ++ [(p.1, v)]).
Proof.
  intros Hne. destruct (exists_last Hne) as [pre [p ->]].
  exists pre, p. split; [done |].
  unfold set_back_second. rewrite last_snoc, length_app. simpl.
  replace (pred (length pre + 1)) with (length pre + 0)%nat by lia.
  by rewrite insert_app_r.
Qed.

(** With the override flag and a target of another length, [setTarget]
    stores the target, but the new number of outputs is the length of the
    target stored before. *)
Lemma setTarget_override t n :
  vec_size t <> num_outputs n -> layers n <> [] -> layer_input_shapes n <> [] ->
  exists n', setTarget t true n = (Ok tt, n') /\
             target n' = t /\ num_outputs n' = vec_size (target n).
Proof.
  intros Hsz Hl Hs. unfold setTarget. se_unfold. simpl.
  destruct (Z.eqb_spec (vec_size t) (num_outputs n)); [done |]. simpl.
  destruct (set_back_second_Some (vec_size (target n)) _ Hs) as (pre & p & Hp & ->).
  simpl. rewrite last_snoc.
  destruct (exists_last Hl) as [lpre [l ->]].
  rewrite alter_back_snoc. simpl. by eexists.
Qed.

(** *** Shape bookkeeping *)

Lemma head_map {A B} (f : A -> B) (xs : list A) : head (map f xs) = f <$> head xs.
Proof. by destruct xs. Qed.

Lemma last_map {A B} (f : A -> B) (xs : list A) : last (map f xs) = f <$> last xs.
Proof.
  induction xs as [|x xs IH]; [done |].
  destruct xs as [|y ys]; [done |].
  change (last (map f (x :: y :: ys))) with (last (map f (y :: ys))).
  by rewrite IH.
Qed.

Lemma nonempty_head_last {A} (xs : list A) :
  xs <> [] -> exists a b, head xs = Some a /\ last xs = Some b.
Proof.
  intros Hne.
  destruct (head_is_Some xs) as [_ [a Ha]]; [done |].
  destruct (last_is_Some xs) as [_ [b Hb]]; [done |]. eauto.
Qed.

Lemma first_shape_ok_nonempty n : first_shape_ok n -> layers n <> [].
Proof. unfold first_shape_ok. by destruct (layers n). Qed.

Lemma recompute_shapes_Ok n :
  layers n <> [] ->
  exists n', recompute_shapes n = (Ok tt, n') /\ layers n' = layers n /\
             shapes_in_sync n' /\ first_shape_ok n' /\ output_count_recorded n'.
Proof.
  intros Hne. destruct (nonempty_head_last _ Hne) as (a & b & Ha & Hb).
  unfold recompute_shapes. se_unfold. rewrite head_map, last_map, Ha, Hb. simpl.
  eexists. split; [reflexivity |]. split; [reflexivity |].
  unfold shapes_in_sync, first_shape_ok, output_count_recorded. simpl.
  by rewrite Ha, Hb.
Qed.

Lemma setLayers_Ok (newLayers : list Layer) n :
  newLayers <> [] ->
  exists n', setLayers newLayers n = (Ok tt, n') /\ layers n' = newLayers /\
             shapes_in_sync n' /\ first_shape_ok n' /\ output_count_recorded n'.
Proof.
  intros Hne. unfold setLayers.
  destruct (recompute_shapes_Ok (set_layers newLayers n) Hne) as (n' & H & Hl & Hi).
  exists n'. split; [| by split].
  erewrite bind_Ok; [exact H | done].
Qed.

Lemma appendLayers_Ok (newLayers : list Layer) n :
  shapes_in_sync n -> first_shape_ok n ->
  exists n', appendLayers newLayers n = (Ok tt, n') /\ layers n' = layers n ++ newLayers /\
             shapes_in_sync n' /\ first_shape_ok n' /\ output_count_recorded n'.
Proof.
  intros Hs Hf. pose proof (first_shape_ok_nonempty n Hf) as Hne.
  assert (Hne' : layers n ++ newLayers <> []) by (by destruct (layers n)).
  destruct (nonempty_head_last _ Hne') as (a & b & Ha & Hb).
  unfold appendLayers. se_unfold. simpl.
  rewrite Hs, <- map_app, last_map, Hb. simpl.
  eexists. split; [reflexivity |]. split; [reflexivity |].
  unfold shapes_in_sync, first_shape_ok, output_count_recorded in *. simpl.
  rewrite Hb. repeat split.
  destruct (layers n); [done |]. by simpl in *.
Qed.

Lemma insertLayer_Ok location newLayer n :
  (location <= length (layers n))%nat -> shapes_in_sync n -> first_shape_ok n ->
  exists n', insertLayer location newLayer n = (Ok tt, n') /\
             layers n' = take location (layers n) ++ newLayer :: drop location (layers n) /\
             shapes_in_sync n' /\ first_shape_ok n' /\ output_count_recorded n'.
Proof.
  intros Hle Hs Hf. unfold insertLayer. unfold bind at 1. unfold get.
  destruct (decide (location = length (layers n))) as [->|Hneq].
  - destruct (appendLayers_Ok [newLayer] n Hs Hf) as (n' & H & Hl & Hi).
    exists n'. split; [done |]. split; [| done].
    by rewrite take_ge, drop_ge by lia.
  - destruct (decide (location < length (layers n))%nat) as [Hlt|]; [| lia].
    set (ls := take location (layers n) ++ newLayer :: drop location (layers n)).
    assert (Hne : layers (set_layers ls n) <> []).
    { simpl. subst ls. by destruct (take location (layers n)). }
    destruct (recompute_shapes_Ok _ Hne) as (n' & H & Hl & Hi).
    exists n'. split; [| by split].
    erewrite bind_Ok; [exact H | done].
Qed.

Lemma setInputs_checked m n :
  setInputs m false n = (Ok tt, set_inputs m n) \/
  exists what, setInputs m false n = (Raise (ThrowMsg what), n).
Proof.
  unfold setInputs. se_unfold. simpl.
  destruct (negb _); [right; by eexists |].
  destruct (negb _); [right; by eexists | by left].
Qed.

Lemma setTarget_checked t n :
  setTarget t false n = (Ok tt, set_target t n) \/
  exists what, setTarget t false n = (Raise (ThrowMsg what), n).
Proof.
  unfold setTarget. se_unfold. simpl.
  destruct (negb _); [right; by eexists | by left].
Qed.

(** With the override flag and a target of another length, on a network
    of one layer, [setTarget] writes the new number of outputs over the
    second component of the only recorded shape and hands that shape to the
    layer: unless the input shape already ended in that number, the recorded
    shape and the first layer's shape cannot both be right afterwards,
    whatever the layer does with the shape it is handed. *)
Lemma setTarget_override_single_layer t n l :
  layers n = [l] -> layer_input_shapes n = [input_shape n] ->
  vec_size t <> num_outputs n -> (input_shape n).2 <> vec_size (target n) ->
  exists n', setTarget t true n = (Ok tt, n') /\
             input_shape n' = input_shape n /\
             layer_input_shapes n' = [((input_shape n).1, vec_size (target n))] /\
             ~ (shapes_in_sync n' /\ first_shape_ok n').
Proof.
  intros Hl Hs Hsz Hne. unfold setTarget. se_unfold. simpl.
  destruct (Z.eqb_spec (vec_size t) (num_outputs n)); [done |]. simpl.
  rewrite Hs. simpl. rewrite Hl. simpl. eexists. split; [reflexivity |]. simpl.
  split; [done |]. split; [done |].
  unfold shapes_in_sync, first_shape_ok. simpl. intros [H1 H2].
  inversion H1 as [H1']. inversion H2 as [H2']. rewrite <- H1' in H2'.
  apply Hne. by rewrite <- H2'.
Qed.

(** C9: where the code leaves the invariant of the claim.  The
    single-layer constructor makes the number of outputs the output width
    of its layer; [appendLayers] then assigns the number of outputs from
    the second component of the last recorded input shape (line 214), so
    even appending no layer at all replaces it by that component, and the
    last layer's output width is no longer the number of outputs. *)
Theorem appendLayers_overwrites_output_count g shape n_out activation loss :
  Layer_new_contract -> shape.2 <> n_out ->
  let n := (Network_single g shape n_out activation loss).2 in
  shapes_in_sync n /\ first_shape_ok n /\ output_width_ok n /\
  exists n',
    appendLayers [] n = (Ok tt, n') /\
    layers n' = layers n /\ layer_input_shapes n' = layer_input_shapes n /\
    input_shape n' = input_shape n /\
    num_outputs n = n_out /\ num_outputs n' = shape.2 /\
    ~ output_width_ok n'.
Proof.
  intros Hc Hne. unfold Network_single.
  destruct (map_index (VECTOR_LOSS g) loss) as [f vl].
  destruct (map_index (VECTOR_LOSS_DERIVATIVE g) loss) as [d vld]. simpl.
  destruct (Hc shape n_out activation) as [H1 H2].
  unfold shapes_in_sync, first_shape_ok, output_width_ok. simpl.
  rewrite H1, H2. do 3 (split; [done |]).
  eexists. split; [reflexivity |]. simpl. rewrite H2.
  do 5 (split; [done |]). intros H. inversion H. by apply Hne.
Qed.

(** *** The training loop *)

Lemma take_arguments_trainingLoss i t n :
  trainingLoss (take_arguments i t n).2 = trainingLoss n.
Proof.
  unfold take_arguments. apply (bind_preserves trainingLoss); clear n.
  - intros n. destruct i as [m|]; [|done].
    by destruct (setInputs_checked m n) as [-> | [what ->]].
  - intros _ n. destruct t as [v|]; [|done].
    by destruct (setTarget_checked v n) as [-> | [what ->]].
Qed.

Lemma predict_trainingLoss i t n n' :
  predict i t n = (Ok tt, n') -> trainingLoss n' = trainingLoss n.
Proof.
  intros H. apply predict_Ok in H as (n1 & H1 & H2).
  apply forward_and_loss_Ok in H2 as (f & d & _ & _ & ->). simpl.
  pose proof (take_arguments_trainingLoss i t n) as E. by rewrite H1 in E.
Qed.

Lemma backwardPass_Ok_nonempty n n' : backwardPass n = (Ok tt, n') -> layers n <> [].
Proof. intros H E. unfold backwardPass in H. se_unfold. by rewrite E in H. Qed.

Lemma backwardPass_trainingLoss n n' :
  backwardPass n = (Ok tt, n') ->
  trainingLoss n' = trainingLoss n /\ scalar_loss n' = scalar_loss n.
Proof.
  intros H. pose proof (backwardPass_Ok_nonempty _ _ H) as Hne.
  destruct (backwardPass_eq n Hne) as (l' & ls' & _ & Hb).
  rewrite Hb in H. by inversion H.
Qed.

(** A round appends one entry to the loss history: the loss of its own
    forward pass, which is also the stored scalar loss afterwards. *)
Lemma first_round_history i t n n' :
  first_round i t n = (Ok tt, n') ->
  trainingLoss n' = trainingLoss n ++ [scalar_loss n'].
Proof.
  unfold first_round. intros H.
  apply bind_inv_Ok in H as ([] & n1 & H1 & H).
  apply bind_inv_Ok in H as ([] & n2 & H2 & H).
  apply bind_inv_Ok in H as ([] & n3 & H3 & H).
  apply predict_trainingLoss in H1.
  apply backwardPass_trainingLoss in H2 as [H2 H2'].
  unfold record_loss, updateWeights, modify in *.
  inversion H3; subst n3. inversion H; subst n'. simpl.
  by rewrite H2, H2', H1.
Qed.

Lemma training_round_history n n' :
  training_round n = (Ok tt, n') ->
  trainingLoss n' = trainingLoss n ++ [scalar_loss n'].
Proof. apply (first_round_history None None). Qed.

Lemma train_unfold stopTol maxIter i t noprint n :
  train stopTol maxIter i t noprint n
  = (first_round i t ;;
     num_iter <- train_loop (Z.to_nat maxIter) stopTol maxIter 1 ;;
     n <- get ;;
     if (num_iter =? maxIter)%Z && negb noprint
     then ret [MaxIterWarning (scalar_loss n)] else ret [])%se n.
Proof.
  unfold train, first_round. cbv zeta. apply bind_assoc4.
Qed.

Lemma train_loop_step fuel stopTol maxIter num_iter n :
  (num_iter <=? maxIter)%Z && scalar_gtb (scalar_loss n) stopTol = true ->
  train_loop (S fuel) stopTol maxIter num_iter n
  = (training_round ;;
     train_loop fuel stopTol maxIter ((num_iter + 1) mod size_t_modulus)%Z)%se n.
Proof.
  intros Hc. simpl. unfold bind at 1. unfold get. rewrite Hc.
  unfold training_round. apply bind_assoc4.
Qed.

Lemma train_loop_stop fuel stopTol maxIter num_iter n :
  (num_iter <=? maxIter)%Z && scalar_gtb (scalar_loss n) stopTol = false ->
  train_loop fuel stopTol maxIter num_iter n = (Ok num_iter, n).
Proof.
  intros Hc. destruct fuel; simpl; unfold bind, get; by rewrite Hc.
Qed.

(** When the loop returns, its condition is false. *)
Lemma train_loop_exit fuel stopTol maxIter : forall num_iter n k n',
  train_loop fuel stopTol maxIter num_iter n = (Ok k, n') ->
  (k <=? maxIter)%Z && scalar_gtb (scalar_loss n') stopTol = false.
Proof.
  induction fuel as [|fuel IH]; intros num_iter n k n' H.
  - simpl in H. unfold bind, get in H.
    destruct ((num_iter <=? maxIter)%Z && scalar_gtb (scalar_loss n) stopTol) eqn:Hc;
      [done |].
    by inversion H; subst.
  - destruct ((num_iter <=? maxIter)%Z && scalar_gtb (scalar_loss n) stopTol) eqn:Hc.
    + rewrite train_loop_step in H by done.
      apply bind_inv_Ok in H as ([] & n1 & _ & H). by eapply IH.
    + rewrite train_loop_stop in H by done. by inversion H; subst.
Qed.

(** [train] never prints the warning when it ends with the loss above the
    tolerance, whatever [noprint] says. *)
Lemma train_never_warns_above_tolerance stopTol maxIter i t noprint n evs n' :
  train stopTol maxIter i t noprint n = (Ok evs, n') ->
  scalar_gtb (scalar_loss n') stopTol = true ->
  evs = [].
Proof.
  rewrite train_unfold. intros H Hg.
  apply bind_inv_Ok in H as ([] & n1 & _ & H).
  apply bind_inv_Ok in H as (k & n2 & Hloop & H).
  apply train_loop_exit in Hloop.
  unfold bind, get, ret in H.
  destruct ((k =? maxIter)%Z && negb noprint) eqn:Hw; inversion H; subst; [|done].
  apply andb_prop in Hw as [Hk _]. apply Z.eqb_eq in Hk. subst k.
  rewrite Z.leb_refl, Hg in Hloop. done.
Qed.

(** *** The fuel of the loop is enough *)

Lemma bind_fuel {S A B} (c : SE S A) (k : A -> SE S B) s :
  (c s).1 <> OutOfFuel -> (forall a s', (k a s').1 <> OutOfFuel) ->
  (bind c k s).1 <> OutOfFuel.
Proof.
  intros Hc Hk. unfold bind. destruct (c s) as [[a|e| |] s1]; simpl in *; done.
Qed.

Lemma predict_fuel i t n : (predict i t n).1 <> OutOfFuel.
Proof.
  rewrite predict_unfold. apply bind_fuel.
  - unfold take_arguments. apply bind_fuel.
    + destruct i as [m|]; [|done].
      by destruct (setInputs_checked m n) as [-> | [what ->]].
    + intros _ s'. destruct t as [v|]; [|done].
      by destruct (setTarget_checked v s') as [-> | [what ->]].
  - intros _ s'. unfold forward_and_loss. se_unfold. simpl.
    destruct (forward_layers (inputs s') (layers s')) as [ls out]. simpl.
    destruct (vector_loss_func s'); simpl; [|done].
    by destruct (vector_loss_derivative s').
Qed.

Lemma backwardPass_fuel n : (backwardPass n).1 <> OutOfFuel.
Proof.
  destruct (decide (layers n = [])) as [E|Hne].
  - unfold backwardPass. se_unfold. by rewrite E.
  - destruct (backwardPass_eq n Hne) as (l' & ls' & _ & ->). done.
Qed.

Lemma training_round_fuel n : (training_round n).1 <> OutOfFuel.
Proof.
  unfold training_round. apply bind_fuel; [apply predict_fuel |].
  intros _ s1. apply bind_fuel; [apply backwardPass_fuel |]. done.
Qed.

Lemma train_loop_fuel stopTol maxIter fuel : forall num_iter n,
  (0 <= num_iter)%Z -> (maxIter + 1 < size_t_modulus)%Z ->
  (maxIter + 1 - num_iter <= Z.of_nat fuel)%Z ->
  (train_loop fuel stopTol maxIter num_iter n).1 <> OutOfFuel.
Proof.
  induction fuel as [|fuel IH]; intros num_iter n H0 Hmax Hfuel;
    destruct ((num_iter <=? maxIter)%Z && scalar_gtb (scalar_loss n) stopTol) eqn:Hc;
    try (by rewrite train_loop_stop).
  - apply andb_prop in Hc as [Hle _]. apply Z.leb_le in Hle. lia.
  - rewrite train_loop_step by done.
    apply andb_prop in Hc as [Hle _]. apply Z.leb_le in Hle.
    apply bind_fuel; [apply training_round_fuel |].
    intros _ s'. rewrite Z.mod_small by lia. apply IH; lia.
Qed.

(** As long as [maxIter + 1] fits a [size_t], the fuel [train] gives its
    loop is never used up: [train] returns, throws, or meets undefined
    behaviour on its own account. *)
Lemma train_fuel stopTol maxIter i t noprint n :
  (maxIter + 1 < size_t_modulus)%Z ->
  (train stopTol maxIter i t noprint n).1 <> OutOfFuel.
Proof.
  intros Hmax. rewrite train_unfold. apply bind_fuel.
  - unfold first_round. apply bind_fuel; [apply predict_fuel |].
    intros _ s1. apply bind_fuel; [apply backwardPass_fuel |]. done.
  - intros _ s1. apply bind_fuel.
    + apply train_loop_fuel; lia.
    + intros k s2. unfold bind, get, ret. simpl. by destruct (_ && _).
Qed.

(** C2: what the code does where the claim expects a single round.  With
    a maximum of 1, whenever the loss of the first round is above the
    tolerance (as in the scenario of section 8 with tolerance 0), [train]
    runs two rounds, the unconditional one and one round of the loop, which
    it enters because the counter 1 does not exceed the maximum 1; it
    leaves the loop with the counter at 2, prints nothing, and has put two
    more entries into the loss history.  The loop itself returns only once
    the counter exceeds the maximum or the loss is not above the tolerance,
    and it runs no round once that is so. *)
Theorem train_max_one_runs_two_rounds :
  (forall n stopTol i t noprint n1 n2,
      first_round i t n = (Ok tt, n1) ->
      scalar_gtb (scalar_loss n1) stopTol = true ->
      training_round n1 = (Ok tt, n2) ->
      train stopTol 1 i t noprint n = (Ok [], n2) /\
      train_loop 1 stopTol 1 1 n1 = (Ok 2%Z, n2) /\
      length (trainingLoss n2) = (length (trainingLoss n) + 2)%nat) /\
  (forall fuel stopTol maxIter num_iter n k n',
      train_loop fuel stopTol maxIter num_iter n = (Ok k, n') ->
      (maxIter < k)%Z \/ scalar_gtb (scalar_loss n') stopTol = false) /\
  (forall fuel stopTol maxIter num_iter n,
      (maxIter < num_iter)%Z \/ scalar_gtb (scalar_loss n) stopTol = false ->
      train_loop fuel stopTol maxIter num_iter n = (Ok num_iter, n)).
Proof.
  split; [| split].
  - intros n stopTol i t noprint n1 n2 H1 Hg H2.
    assert (Hloop : train_loop 1 stopTol 1 1 n1 = (Ok 2%Z, n2)).
    { rewrite train_loop_step by (by rewrite Hg).
      erewrite bind_Ok by exact H2.
      by apply train_loop_stop. }
    repeat split; [| done |].
    + rewrite train_unfold. erewrite bind_Ok by exact H1.
      change (Z.to_nat 1) with 1%nat. by erewrite bind_Ok by exact Hloop.
    + apply first_round_history in H1. apply training_round_history in H2.
      rewrite H2, H1, !length_app. simpl. lia.
  - intros fuel stopTol maxIter num_iter n k n' H.
    apply train_loop_exit in H. apply andb_false_iff in H as [H|H]; [left | by right].
    by apply Z.leb_gt in H.
  - intros fuel stopTol maxIter num_iter n H. apply train_loop_stop.
    apply andb_false_iff. destruct H as [H|H]; [left | by right].
    by apply Z.leb_gt.
Qed.
End Props.
End NetProps.

(** ** The network on concrete data *)
Module Scenario.
Import Net Dense.

(** C1, on the two-layer network after a forward pass. *)
Lemma backwardPass_walk_witness :
  layers two_layer_net <> [] /\
  loss_deriv two_layer_net = [4%Q] /\
  exists n',
    backwardPass two_layer_net = (Ok tt, n') /\
    last (layers n')
    = Layer_backwardPass_vec (loss_deriv two_layer_net) <$> last (layers two_layer_net) /\
    Layer_getGradient <$> head (layers n') = Some (gradient n').
Proof.
  assert (H : layers two_layer_net <> []) by (vm_compute; discriminate).
  split; [exact H |]. split; [vm_compute; reflexivity |].
  destruct (NetProps.backwardPass_walks_last_to_first two_layer_net H)
    as (n' & H1 & _ & _ & H2 & _ & H3 & _).
  exists n'. split; [exact H1 |]. split; [exact H2 | exact H3].
Defined.



(** C4: "Huber" is in neither registry; [setLossFunc] returns all the same,
    the registry now holds an empty function under that name, and the
    network's derivative, set before, is empty afterwards.  Construction
    with that name returns a network with an empty loss function. *)
Lemma setLossFunc_unknown_name_returns :
  VECTOR_LOSS initial_globals !! "Huber" = None /\
  (setLossFunc "Huber" (initial_globals, fresh)).1 = Ok tt /\
  VECTOR_LOSS (setLossFunc "Huber" (initial_globals, fresh)).2.1 !! "Huber" = Some None /\
  is_Some (vector_loss_derivative fresh) /\
  vector_loss_derivative (setLossFunc "Huber" (initial_globals, fresh)).2.2 = None /\
  vector_loss_func (Network_single initial_globals (1, 1)%Z 1%Z "identity" "Huber").2 = None.
Proof.
  repeat split; try (vm_compute; reflexivity).
  vm_compute. by eexists.
Qed.

Lemma unknown_loss_name_witness :
  VECTOR_LOSS initial_globals !! "Huber" = None /\
  VECTOR_LOSS_DERIVATIVE initial_globals !! "Huber" = None /\
  setLossFunc "Huber" (initial_globals, fresh)
  = (Ok tt,
     (mkGlobals _ (<["Huber" := None]> (VECTOR_LOSS initial_globals))
                  (<["Huber" := None]> (VECTOR_LOSS_DERIVATIVE initial_globals)),
      set_vector_loss_derivative None (set_vector_loss None fresh))).
Proof.
  assert (H1 : VECTOR_LOSS initial_globals !! "Huber" = None) by (vm_compute; reflexivity).
  assert (H2 : VECTOR_LOSS_DERIVATIVE initial_globals !! "Huber" = None)
    by (vm_compute; reflexivity).
  split; [exact H1 |]. split; [exact H2 |].
  exact (proj1 (NetProps.unknown_loss_name_installs_empty_function
                  initial_globals "Huber" H1 H2) fresh).
Defined.

(** C5, with an empty weight list for the one-layer network. *)
Lemma setWeights_arity_witness :
  length ([] : list QMat) <> length (layers fresh) /\
  setWeights [] fresh
  = (Raise (ThrowMsg "Error: must provide exactly one weight matrix for each layer."), fresh)
  /\ getWeights (setWeights [] fresh).2 = getWeights fresh.
Proof.
  assert (H : length ([] : list QMat) <> length (layers fresh))
    by (vm_compute; discriminate).
  split; [exact H |]. exact (NetProps.setWeights_arity_mismatch [] fresh H).
Defined.

(** C6: on the fresh network (one output, stored target of length 1), the
    override with a target of length 2 returns and stores the target, yet
    the number of outputs stays 1, the length of the old target, and so
    does the last layer's output width. *)
Theorem setTarget_override_keeps_old_count :
  let r := setTarget [6%Q; 7%Q] true fresh in
  num_outputs fresh = 1%Z /\ vec_size (target fresh) = 1%Z /\
  r.1 = Ok tt /\ target r.2 = [6%Q; 7%Q] /\ vec_size (target r.2) = 2%Z /\
  num_outputs r.2 = 1%Z /\
  Layer_getNumOutputs <$> last (layers r.2) = Some 1%Z.
Proof. vm_compute. by repeat split. Qed.

(** C7: in the scenario of section 8 with maximum 1 and tolerance 0,
    [train] ends on the iteration limit with the loss above the tolerance
    and prints no warning; with maximum 2 and tolerance 1 it ends because
    the loss is within the tolerance, and prints the warning. *)
Theorem train_warning_misfires :
  (let r := train 0%Q 1 None None false scenario in
   r.1 = Ok [] /\ scalar_gtb (scalar_loss r.2) 0%Q = true) /\
  (let r := train 1%Q 2 None None false scenario in
   exists loss, r.1 = Ok [MaxIterWarning loss] /\ scalar_gtb (scalar_loss r.2) 1%Q = false).
Proof.
  split.
  - vm_compute. by split.
  - vm_compute. eexists. by split.
Qed.

(** The scenario of section 8 with maximum 1 and tolerance 0: [train]
    returns with two entries in the loss history, not one. *)
Lemma scenario_history_has_two_entries :
  let r := train 0%Q 1 None None false scenario in
  trainingLoss scenario = [] /\ r.1 = Ok [] /\
  length (trainingLoss r.2) = 2%nat /\ length (trainingLoss r.2) <> 1%nat.
Proof. vm_compute. repeat split. discriminate. Qed.

(** C2, on the scenario of section 8 with maximum 1 and tolerance 0. *)
Lemma train_max_one_witness :
  let n1 := (first_round None None scenario).2 in
  let n2 := (training_round n1).2 in
  first_round None None scenario = (Ok tt, n1) /\
  scalar_gtb (scalar_loss n1) 0%Q = true /\
  training_round n1 = (Ok tt, n2) /\
  train 0%Q 1 None None false scenario = (Ok [], n2) /\
  train_loop 1 0%Q 1 1 n1 = (Ok 2%Z, n2) /\
  length (trainingLoss n2) = (length (trainingLoss scenario) + 2)%nat.
Proof.
  intros n1 n2.
  assert (H1 : first_round None None scenario = (Ok tt, n1)) by (vm_compute; reflexivity).
  assert (Hg : scalar_gtb (scalar_loss n1) 0%Q = true) by (vm_compute; reflexivity).
  assert (H2 : training_round n1 = (Ok tt, n2)) by (vm_compute; reflexivity).
  split; [exact H1 |]. split; [exact Hg |]. split; [exact H2 |].
  exact (proj1 (@NetProps.train_max_one_runs_two_rounds kernel layer)
           scenario 0%Q None None false n1 n2 H1 Hg H2).
Defined.

(** C9, on [Network net({2, 3}, 1, "identity")] followed by
    [appendLayers] of an empty list. *)
Lemma appendLayers_output_count_witness :
  Layer_new_contract /\ ((2, 3)%Z).2 <> 1%Z /\
  output_width_ok fresh_2x3 /\
  exists n',
    appendLayers [] fresh_2x3 = (Ok tt, n') /\
    layers n' = layers fresh_2x3 /\
    num_outputs fresh_2x3 = 1%Z /\ num_outputs n' = 3%Z /\
    ~ output_width_ok n'.
Proof.
  assert (Hc : Layer_new_contract) by (intros shape n_out activation; by split).
  assert (Hne : ((2, 3)%Z).2 <> 1%Z) by (simpl; lia).
  split; [exact Hc |]. split; [exact Hne |].
  destruct (@NetProps.appendLayers_overwrites_output_count kernel layer
              initial_globals (2, 3)%Z 1%Z "identity" "L2" Hc Hne)
    as (_ & _ & Hw & n' & H1 & H2 & _ & _ & H5 & H6 & H7).
  split; [exact Hw |]. exists n'. repeat split; assumption.
Defined.

(** C10, with a 2x2 matrix for the network whose input shape is 1x1. *)
Lemma predict_mismatch_witness :
  shape_mismatch (mkQMat 2 2 [1%Q; 2%Q; 3%Q; 4%Q]) scenario /\
  (exists what,
      predict (Some (mkQMat 2 2 [1%Q; 2%Q; 3%Q; 4%Q])) None scenario
      = (Raise (ThrowMsg what), scenario)) /\
  (exists what,
      predictVal (Some (mkQMat 2 2 [1%Q; 2%Q; 3%Q; 4%Q])) None scenario
      = (Raise (ThrowMsg what), scenario)).
Proof.
  assert (H : shape_mismatch (mkQMat 2 2 [1%Q; 2%Q; 3%Q; 4%Q]) scenario).
  { left. vm_compute. discriminate. }
  split; [exact H |].
  exact (proj1 (@NetProps.predict_rejects_mismatched_input kernel layer) scenario _ None H).
Defined.
End Scenario.

(** ** Further properties of the network methods *)
Module MoreProps.
Import Net NetTuning NetProps.
Section Props.
Context {K : Kernel} {L : LayerAPI} {T : LayerTuning}.

Ltac unfold_se :=
  unfold call2 in *; unfold bind, get, modify, ret, throw, undefined, lift in *.

(** *** The forward pass *)

Lemma forward_layers_length (ls : list Layer) : forall m,
  length (forward_layers m ls).1 = length ls.
Proof.
  induction ls as [|l ls IH]; intros m; [done |].
  simpl. specialize (IH (Layer_getOutputs (Layer_forwardPass (Layer_setInputs m l)))).
  destruct (forward_layers _ ls) as [rest out]. simpl in *. by rewrite IH.
Qed.

Lemma forward_layers_lookup (ls : list Layer) : forall m k l,
  ls !! k = Some l ->
  exists feed,
    (k = 0%nat -> feed = m) /\
    (forall j prev, k = S j -> (forward_layers m ls).1 !! j = Some prev ->
                    feed = Layer_getOutputs prev) /\
    (forward_layers m ls).1 !! k = Some (Layer_forwardPass (Layer_setInputs feed l)).
Proof.
  induction ls as [|x ls IH]; intros m k l Hk; [done |].
  simpl. pose (x' := Layer_forwardPass (Layer_setInputs m x)).
  specialize (IH (Layer_getOutputs x')). fold x'.
  destruct (forward_layers (Layer_getOutputs x') ls) as [rest out] eqn:E. simpl in *.
  destruct k as [|k]; simpl in *.
  - inversion Hk; subst. exists m. by repeat split.
  - destruct (IH k l Hk) as (feed & H0 & HS & Hl).
    exists feed. split; [done |]. split; [| done].
    intros j prev Hj Hprev. inversion Hj; subst j.
    destruct k as [|k']; simpl in *.
    + inversion Hprev; subst. by apply H0.
    + by apply (HS k').
Qed.

Lemma forward_layers_out (ls : list Layer) : forall m,
  (forward_layers m ls).2 = default m (Layer_getOutputs <$> last (forward_layers m ls).1).
Proof.
  induction ls as [|x ls IH]; intros m; [done |].
  simpl. pose (x' := Layer_forwardPass (Layer_setInputs m x)). fold x'.
  specialize (IH (Layer_getOutputs x')).
  pose proof (forward_layers_length ls (Layer_getOutputs x')) as Hlen.
  destruct (forward_layers (Layer_getOutputs x') ls) as [rest out] eqn:E. simpl in *.
  rewrite IH. destruct rest as [|y ys]; simpl.
  - done.
  - change (last (x' :: y :: ys)) with (last (y :: ys)).
    destruct (last (y :: ys)) eqn:El; [done |].
    by apply last_None in El.
Qed.

(** The state the optional arguments leave: at most [inputs] and [target]
    are assigned. *)
Lemma take_arguments_state i t n :
  exists m v,
    (take_arguments i t n).2 = set_target v (set_inputs m n) /\
    ((take_arguments i t n).1 = Ok tt ->
     m = default (inputs n) i /\ v = default (target n) t).
Proof.
  unfold take_arguments, bind.
  destruct i as [mi|]; destruct t as [vt|]; simpl.
  - destruct (setInputs_checked mi n) as [-> | [what ->]].
    + destruct (setTarget_checked vt (set_inputs mi n)) as [-> | [what ->]].
      * by exists mi, vt.
      * exists mi, (target n). split; [by destruct n | done].
    + exists (inputs n), (target n). split; [by destruct n | done].
  - destruct (setInputs_checked mi n) as [-> | [what ->]].
    + exists mi, (target n). split; [by destruct n | done].
    + exists (inputs n), (target n). split; [by destruct n | done].
  - unfold ret. destruct (setTarget_checked vt n) as [-> | [what ->]].
    + exists (inputs n), vt. split; [by destruct n | done].
    + exists (inputs n), (target n). split; [by destruct n | done].
  - exists (inputs n), (target n). split; [by destruct n | done].
Qed.

Lemma predict_Ok_state i t n n' :
  predict i t n = (Ok tt, n') ->
  exists f d,
    vector_loss_func n = Some f /\ vector_loss_derivative n = Some d /\
    let n1 := set_target (default (target n) t) (set_inputs (default (inputs n) i) n) in
    let fl := forward_layers (inputs n1) (layers n) in
    let out := vec_of_mat fl.2 in
    n' = set_loss_deriv (d out (target n1))
           (set_scalar_loss (f out (target n1))
              (set_resid (vec_sub out (target n1))
                 (set_outputs out (set_layers fl.1 n1)))).
Proof.
  intros H. apply predict_Ok in H as (n1 & H1 & H2).
  destruct (take_arguments_state i t n) as (m & v & Hs & Hok).
  rewrite H1 in Hs, Hok. simpl in *. destruct (Hok eq_refl) as [-> ->]. subst n1.
  apply forward_and_loss_Ok in H2 as (f & d & Hf & Hd & ->).
  by exists f, d.
Qed.

(** X1: a successful [predict] keeps the number of layers; the first layer
    is set to the network input and run forward, every later layer is set to
    the output of the layer before it and run forward; and the network's
    outputs are the last layer's outputs (the inputs themselves if there is
    no layer). *)
Theorem predict_chains_layers i t n n' :
  predict i t n = (Ok tt, n') ->
  length (layers n') = length (layers n) /\
  (forall k l, layers n !! k = Some l ->
     exists feed,
       (k = 0%nat -> feed = inputs n') /\
       (forall j prev, k = S j -> layers n' !! j = Some prev -> feed = Layer_getOutputs prev) /\
       layers n' !! k = Some (Layer_forwardPass (Layer_setInputs feed l))) /\
  outputs n' = vec_of_mat (default (inputs n') (Layer_getOutputs <$> last (layers n'))).
Proof.
  intros H. apply predict_Ok_state in H as (f & d & _ & _ & ->). simpl.
  split; [apply forward_layers_length |].
  split; [intros k l; apply forward_layers_lookup |].
  by rewrite <- forward_layers_out.
Qed.

(** X2: after a successful [predict] the stored inputs and target are the
    arguments where given (the old ones otherwise), the residual is outputs
    minus target, and the scalar loss and the loss gradient are the
    network's loss function and derivative taken at (outputs, target). *)
Theorem predict_loss_postcondition i t n n' :
  predict i t n = (Ok tt, n') ->
  exists f d,
    vector_loss_func n = Some f /\ vector_loss_derivative n = Some d /\
    inputs n' = default (inputs n) i /\ target n' = default (target n) t /\
    resid n' = vec_sub (outputs n') (target n') /\
    scalar_loss n' = f (outputs n') (target n') /\
    loss_deriv n' = d (outputs n') (target n').
Proof.
  intros H. apply predict_Ok_state in H as (f & d & Hf & Hd & ->).
  exists f, d. by repeat split.
Qed.

(** X3: with the registered "L2" pair installed, a successful [predict]
    leaves the loss gradient equal to the residual and the scalar loss equal
    to half the residual's dot product with itself. *)
Theorem predict_L2_gradient_is_residual i t n n' :
  vector_loss_func n = Some L2_loss ->
  vector_loss_derivative n = Some L2_loss_derivative ->
  predict i t n = (Ok tt, n') ->
  loss_deriv n' = resid n' /\
  scalar_loss n' = scalar_half (vec_dot (resid n') (resid n')).
Proof.
  intros Hf Hd H. apply predict_Ok_state in H as (f & d & Hf' & Hd' & ->).
  rewrite Hf in Hf'. rewrite Hd in Hd'. inversion Hf'; inversion Hd'; subst. done.
Qed.

(** *** The loss registries *)

Lemma map_index_hit {A} (m : gmap string (std_function A)) k f :
  m !! k = Some f -> map_index m k = (f, m).
Proof. intros H. unfold map_index. by rewrite H. Qed.

Lemma map_index_lookup_same {A} (m : gmap string (std_function A)) k :
  (map_index m k).2 !! k = Some (map_index m k).1.
Proof.
  unfold map_index. destruct (m !! k) eqn:E; simpl; [done |].
  by rewrite lookup_insert_eq.
Qed.

Lemma map_index_lookup_other {A} (m : gmap string (std_function A)) k k' :
  k' <> k -> (map_index m k).2 !! k' = m !! k'.
Proof.
  intros Hne. unfold map_index. destruct (m !! k) eqn:E; simpl; [done |].
  by rewrite lookup_insert_ne.
Qed.

Lemma map_index_keeps {A} (m : gmap string (std_function A)) k k' v :
  m !! k' = Some v -> (map_index m k).2 !! k' = Some v.
Proof.
  intros H. destruct (decide (k' = k)) as [->|Hne].
  - by rewrite (map_index_hit _ _ _ H).
  - by rewrite map_index_lookup_other.
Qed.

Lemma map_index_again {A} (m : gmap string (std_function A)) k :
  map_index (map_index m k).2 k = map_index m k.
Proof.
  rewrite (map_index_hit _ _ _ (map_index_lookup_same m k)).
  by destruct (map_index m k).
Qed.

(** X6: for a loss name both registries hold, construction and
    [setLossFunc] leave the registries as they are; the constructors
    install the registered function and derivative, and [setLossFunc]
    installs the registered derivative. *)
Theorem known_loss_name_is_looked_up g loss f d :
  VECTOR_LOSS g !! loss = Some f ->
  VECTOR_LOSS_DERIVATIVE g !! loss = Some d ->
  (forall shape n_out activation,
      let r := Network_single g shape n_out activation loss in
      r.1 = g /\ vector_loss_func r.2 = f /\ vector_loss_derivative r.2 = d) /\
  (forall activation _layers,
      Network_loss_layers g activation loss _layers = (g, Network_of_list f d _layers)) /\
  (forall n, let r := setLossFunc loss (g, n) in
             r.1 = Ok tt /\ r.2.1 = g /\ vector_loss_derivative r.2.2 = d).
Proof.
  intros Hf Hd. split; [| split].
  - intros shape n_out activation. unfold Network_single.
    rewrite (map_index_hit _ _ _ Hf), (map_index_hit _ _ _ Hd). by destruct g.
  - intros activation _layers. unfold Network_loss_layers.
    rewrite (map_index_hit _ _ _ Hf), (map_index_hit _ _ _ Hd). by destruct g.
  - intros n. unfold setLossFunc.
    rewrite (map_index_hit _ _ _ Hf), (map_index_hit _ _ _ Hd). by destruct g.
Qed.

(** X7: [setLossFunc] with any name always returns; it never changes or
    removes an entry the registries hold, touches no other name, leaves the
    name it was given present in both registries, and doing it a second time
    changes nothing more. *)
Theorem setLossFunc_only_adds g n loss :
  let r := setLossFunc loss (g, n) in
  r.1 = Ok tt /\
  (forall k v, VECTOR_LOSS g !! k = Some v -> VECTOR_LOSS r.2.1 !! k = Some v) /\
  (forall k v, VECTOR_LOSS_DERIVATIVE g !! k = Some v ->
               VECTOR_LOSS_DERIVATIVE r.2.1 !! k = Some v) /\
  (forall k, k <> loss ->
             VECTOR_LOSS r.2.1 !! k = VECTOR_LOSS g !! k /\
             VECTOR_LOSS_DERIVATIVE r.2.1 !! k = VECTOR_LOSS_DERIVATIVE g !! k) /\
  is_Some (VECTOR_LOSS r.2.1 !! loss) /\
  VECTOR_LOSS_DERIVATIVE r.2.1 !! loss = Some (vector_loss_derivative r.2.2) /\
  setLossFunc loss r.2 = (Ok tt, r.2).
Proof.
  unfold setLossFunc.
  pose proof (map_index_lookup_same (VECTOR_LOSS g) loss) as Hs1.
  pose proof (map_index_lookup_same (VECTOR_LOSS_DERIVATIVE g) loss) as Hs2.
  pose proof (fun k v => map_index_keeps (VECTOR_LOSS g) loss k v) as Hk1.
  pose proof (fun k v => map_index_keeps (VECTOR_LOSS_DERIVATIVE g) loss k v) as Hk2.
  pose proof (fun k => map_index_lookup_other (VECTOR_LOSS g) loss k) as Ho1.
  pose proof (fun k => map_index_lookup_other (VECTOR_LOSS_DERIVATIVE g) loss k) as Ho2.
  pose proof (map_index_again (VECTOR_LOSS g) loss) as Ha1.
  pose proof (map_index_again (VECTOR_LOSS_DERIVATIVE g) loss) as Ha2.
  destruct (map_index (VECTOR_LOSS g) loss) as [f vl].
  destruct (map_index (VECTOR_LOSS_DERIVATIVE g) loss) as [d vld].
  simpl in *.
  split; [done |]. split; [exact Hk1 |]. split; [exact Hk2 |].
  split; [intros k Hk; split; [by apply Ho1 | by apply Ho2] |].
  split; [by eexists |]. split; [done |].
  by rewrite Ha1, Ha2.
Qed.

(** *** Inputs and target *)

(** X8: without the override flag [setInputs] accepts exactly the matrices
    of the declared input shape, and then assigns [inputs] only; the rows
    are checked before the columns, and a rejected call leaves the network
    as it was. *)
Theorem setInputs_accepts_declared_shape m n :
  (mat_rows m = (input_shape n).1 -> mat_cols m = (input_shape n).2 ->
   setInputs m false n = (Ok tt, set_inputs m n)) /\
  (mat_rows m <> (input_shape n).1 ->
   setInputs m false n
   = (Raise (ThrowMsg "Error: new input matrix must have number of rows of input_shape.first"), n)) /\
  (mat_rows m = (input_shape n).1 -> mat_cols m <> (input_shape n).2 ->
   setInputs m false n
   = (Raise (ThrowMsg "Error: new input matrix must have number of cols of input_shape.second"), n)).
Proof.
  unfold setInputs. unfold_se. simpl.
  destruct (Z.eqb_spec (mat_rows m) (input_shape n).1);
    destruct (Z.eqb_spec (mat_cols m) (input_shape n).2); simpl; by repeat split.
Qed.

(** X9: with the override flag [setInputs] adopts the matrix whatever its
    shape: on a network with a first layer and a first recorded shape it
    returns with the matrix stored and handed to the first layer, the input
    shape and the first recorded shape set to the matrix's dimensions, and
    all other layers, shapes and the number of outputs untouched; the same
    matrix then passes the check of [setInputs] without the flag. *)
Theorem setInputs_override_adopts_shape m n l ls s ss :
  layers n = l :: ls -> layer_input_shapes n = s :: ss ->
  exists n',
    setInputs m true n = (Ok tt, n') /\
    inputs n' = m /\ input_shape n' = (mat_rows m, mat_cols m) /\
    layers n' = Layer_setInputs m l :: ls /\
    layer_input_shapes n' = (mat_rows m, mat_cols m) :: ss /\
    num_outputs n' = num_outputs n /\
    setInputs m false n' = (Ok tt, n').
Proof.
  intros Hl Hs. unfold setInputs at 1. unfold_se. simpl. rewrite Hl. simpl. rewrite Hs.
  eexists. split; [reflexivity |]. simpl. repeat split.
  unfold setInputs. unfold_se. simpl. by rewrite !Z.eqb_refl.
Qed.

(** X10: a target whose length is the number of outputs is stored whatever
    the override flag says, and nothing else changes; a target of another
    length, without the flag, is rejected and the network is left as it
    was. *)
Theorem setTarget_checks_length t n :
  (vec_size t = num_outputs n -> forall flag, setTarget t flag n = (Ok tt, set_target t n)) /\
  (vec_size t <> num_outputs n ->
   setTarget t false n
   = (Raise (ThrowMsg "Error: _target must have length equal to num_outputs"), n)).
Proof.
  unfold setTarget. unfold_se. simpl.
  destruct (Z.eqb_spec (vec_size t) (num_outputs n)); simpl; split; done.
Qed.

(** *** Editing the layer list *)

Lemma app_nonempty_l {A} (xs ys : list A) : xs <> [] -> xs ++ ys <> [].
Proof. by destruct xs. Qed.

(** X11: appending two lists one after the other is appending their
    concatenation, on every network that has a recorded shape. *)
Theorem appendLayers_twice (a b : list Layer) n :
  layer_input_shapes n <> [] ->
  (appendLayers a ;; appendLayers b)%se n = appendLayers (a ++ b) n.
Proof.
  intros Hne. unfold appendLayers. unfold_se. simpl.
  destruct (last_is_Some (layer_input_shapes n ++ map Layer_getInputShape a))
    as [_ [x1 H1]]; [by apply app_nonempty_l |].
  rewrite H1. simpl. rewrite <- !app_assoc, <- map_app.
  destruct (last_is_Some (layer_input_shapes n ++ map Layer_getInputShape (a ++ b)))
    as [_ [x2 H2]]; [by apply app_nonempty_l |].
  rewrite H2. simpl. by rewrite <- app_assoc.
Qed.

(** X12: on a network whose shapes are in step with its layers,
    [insertLayer] at a position up to the end returns with one layer more:
    the new layer sits at that position, the layers before it stay where
    they were and the layers from it on move up by one; the recorded shapes
    follow. *)
Theorem insertLayer_lookup location newLayer n :
  (location <= length (layers n))%nat -> shapes_in_sync n -> first_shape_ok n ->
  exists n',
    insertLayer location newLayer n = (Ok tt, n') /\
    length (layers n') = S (length (layers n)) /\
    layers n' !! location = Some newLayer /\
    (forall i, (i < location)%nat -> layers n' !! i = layers n !! i) /\
    (forall i, (location <= i)%nat -> layers n' !! S i = layers n !! i) /\
    layer_input_shapes n' = map Layer_getInputShape (layers n').
Proof.
  intros Hle Hs Hf.
  destruct (insertLayer_Ok location newLayer n Hle Hs Hf) as (n' & H & Hl & Hs' & _).
  exists n'. split; [done |]. rewrite Hl.
  assert (Ht : length (take location (layers n)) = location) by (rewrite length_take; lia).
  split; [| split; [| split; [| split]]].
  - rewrite length_app. simpl. rewrite Ht, length_drop. lia.
  - rewrite lookup_app_r by lia. by rewrite Ht, Nat.sub_diag.
  - intros i Hi. rewrite lookup_app_l by lia. by rewrite lookup_take_lt.
  - intros i Hi. rewrite lookup_app_r by lia. rewrite Ht.
    replace (S i - location)%nat with (S (i - location)) by lia. simpl.
    rewrite lookup_drop. f_equal. lia.
  - by rewrite <- Hl.
Qed.

(** X13: on a network whose recorded shapes, input shape and number of
    outputs are the ones the list edits compute, [setLayers(getLayers())]
    returns and changes nothing. *)
Theorem setLayers_getLayers_identity n :
  shapes_in_sync n -> first_shape_ok n -> output_count_recorded n ->
  setLayers (getLayers n) n = (Ok tt, n).
Proof.
  unfold shapes_in_sync, first_shape_ok, output_count_recorded, getLayers.
  intros Hs Hf Ho. unfold setLayers, recompute_shapes. unfold_se. simpl.
  rewrite head_map, last_map.
  destruct (head (layers n)) as [a|]; [| done].
  destruct (last (layers n)) as [b|]; [| done]. simpl in *.
  inversion Hf as [Hf']. inversion Ho as [Ho'].
  destruct n. simpl in *. by subst.
Qed.

(** *** Weights *)

Lemma set_layers_same n : set_layers (layers n) n = n.
Proof. by destruct n. Qed.

Lemma setWeights_loop_accepted (ws : list Mat) (ls ls' : list Layer) :
  Forall3 (fun w l l' => Layer_setWeights w l = Ok l') ws ls ls' ->
  forall n (done : list Layer) (wdone : list Mat),
    layers n = done ++ ls -> length wdone = length done ->
    setWeights_loop (length ls) (length done) (wdone ++ ws) n
    = (Ok tt, set_layers (done ++ ls') n).
Proof.
  induction 1 as [|w l l' ws ls ls' Hw _ IH]; intros n done wdone Hl Hlen.
  - simpl. unfold ret. rewrite app_nil_r in *. by rewrite <- Hl, set_layers_same.
  - simpl. unfold_se.
    assert (H1 : layers n !! length done = Some l).
    { rewrite Hl, lookup_app_r by lia. by rewrite Nat.sub_diag. }
    assert (H2 : (wdone ++ w :: ws) !! length done = Some w).
    { rewrite lookup_app_r by lia. by rewrite Hlen, Nat.sub_diag. }
    rewrite H1, H2, Hw. simpl.
    assert (Hd : length (done ++ [l']) = S (length done))
      by (rewrite length_app; simpl; lia).
    specialize (IH (set_layers (<[length done := l']> (layers n)) n)
                   (done ++ [l']) (wdone ++ [w])).
    rewrite Hd, <- !app_assoc in IH. simpl in IH. rewrite IH.
    + done.
    + simpl. rewrite Hl.
      replace (length done) with (length done + 0)%nat at 1 by lia.
      by rewrite insert_app_r.
    + rewrite length_app. simpl. lia.
Qed.

Lemma setWeights_loop_rejected (ws1 : list Mat) (ls1 ls1' : list Layer) :
  Forall3 (fun w l l' => Layer_setWeights w l = Ok l') ws1 ls1 ls1' ->
  forall n (done : list Layer) (wdone : list Mat) w l e ws2 ls2 todo,
    Layer_setWeights w l = Raise e ->
    layers n = done ++ ls1 ++ l :: ls2 -> length wdone = length done ->
    setWeights_loop (length ls1 + S todo) (length done) (wdone ++ ws1 ++ w :: ws2) n
    = (Raise e, set_layers (done ++ ls1' ++ l :: ls2) n).
Proof.
  induction 1 as [|w0 l0 l0' ws1 ls1 ls1' Hw _ IH];
    intros n done wdone w l e ws2 ls2 todo He Hl Hlen.
  - simpl. unfold_se.
    assert (H1 : layers n !! length done = Some l).
    { rewrite Hl, lookup_app_r by lia. by rewrite Nat.sub_diag. }
    assert (H2 : (wdone ++ w :: ws2) !! length done = Some w).
    { rewrite lookup_app_r by lia. by rewrite Hlen, Nat.sub_diag. }
    simpl in *. rewrite H1, H2, He. simpl. by rewrite <- Hl, set_layers_same.
  - simpl. unfold_se.
    assert (H1 : layers n !! length done = Some l0).
    { rewrite Hl, lookup_app_r by lia. by rewrite Nat.sub_diag. }
    assert (H2 : (wdone ++ w0 :: ws1 ++ w :: ws2) !! length done = Some w0).
    { rewrite lookup_app_r by lia. by rewrite Hlen, Nat.sub_diag. }
    rewrite H1, H2, Hw. simpl.
    assert (Hd : length (done ++ [l0']) = S (length done))
      by (rewrite length_app; simpl; lia).
    specialize (IH (set_layers (<[length done := l0']> (layers n)) n)
                   (done ++ [l0']) (wdone ++ [w0]) w l e ws2 ls2 todo He).
    rewrite Hd, <- !app_assoc in IH. simpl in IH. rewrite IH.
    + done.
    + simpl. rewrite Hl.
      replace (length done) with (length done + 0)%nat at 1 by lia.
      by rewrite insert_app_r.
    + rewrite length_app. simpl. lia.
Qed.

Lemma setWeights_right_length (weights : list Mat) n :
  length weights = length (layers n) ->
  setWeights weights n = setWeights_loop (length (layers n)) 0 weights n.
Proof.
  intros H. unfold setWeights. unfold_se.
  by destruct (Nat.eqb_spec (length weights) (length (layers n))).
Qed.

Lemma setWeights_accepted (weights : list Mat) n (ls' : list Layer) :
  Forall3 (fun w l l' => Layer_setWeights w l = Ok l') weights (layers n) ls' ->
  setWeights weights n = (Ok tt, set_layers ls' n).
Proof.
  intros HF. pose proof (Forall3_length_lm _ _ _ _ HF) as Hlen.
  rewrite setWeights_right_length by done.
  by apply (setWeights_loop_accepted _ _ _ HF n [] []).
Qed.

(** X14: when every layer accepts the matrix at its position, [setWeights]
    returns with each layer replaced by what its own [setWeights] made of
    it, in order, and nothing else changed; if each layer then reports the
    matrix it was given, [getWeights] returns the list that was set. *)
Theorem setWeights_then_getWeights (weights : list Mat) n (ls' : list Layer) :
  Forall3 (fun w l l' => Layer_setWeights w l = Ok l') weights (layers n) ls' ->
  setWeights weights n = (Ok tt, set_layers ls' n) /\
  (Forall2 (fun w l' => Layer_getWeights l' = w) weights ls' ->
   getWeights (setWeights weights n).2 = weights).
Proof.
  intros HF. rewrite (setWeights_accepted _ _ _ HF). split; [done |].
  unfold getWeights. simpl. clear HF.
  induction 1 as [|w l' ws ls Hw _ IH]; [done |]. simpl. by rewrite Hw, IH.
Qed.

(** X15: [setWeights] does not roll back.  With a list of the right length,
    if the layers before some position accept their matrices and the layer
    at that position throws, the call ends in that exception with the
    earlier layers already replaced and the layers from that position on
    untouched. *)
Theorem setWeights_keeps_partial_update n (ws1 ws2 : list Mat) w
    (ls1 ls1' ls2 : list Layer) l e :
  layers n = ls1 ++ l :: ls2 ->
  length ws2 = length ls2 ->
  Forall3 (fun w l l' => Layer_setWeights w l = Ok l') ws1 ls1 ls1' ->
  Layer_setWeights w l = Raise e ->
  setWeights (ws1 ++ w :: ws2) n = (Raise e, set_layers (ls1' ++ l :: ls2) n).
Proof.
  intros Hl Hlen HF He.
  pose proof (Forall3_length_lm _ _ _ _ HF) as Hlen1.
  rewrite setWeights_right_length by (rewrite Hl, !length_app; simpl; lia).
  rewrite Hl, length_app. simpl length.
  by apply (setWeights_loop_rejected _ _ _ HF n [] [] w l e ws2 ls2 (length ls2) He).
Qed.

(** X16: if every layer accepts its own weights back unchanged, then
    [setWeights(getWeights())] returns and leaves the network exactly as it
    was. *)
Theorem setWeights_getWeights_identity n :
  Forall (fun l => Layer_setWeights (Layer_getWeights l) l = Ok l) (layers n) ->
  setWeights (getWeights n) n = (Ok tt, n).
Proof.
  intros HF.
  rewrite (setWeights_accepted (getWeights n) n (layers n)); [by rewrite set_layers_same |].
  unfold getWeights. induction HF as [|l ls Hl _ IH]; simpl; by constructor.
Qed.

(** *** What the passes leave alone *)

Lemma forward_and_loss_frame n :
  let n' := (forward_and_loss n).2 in
  bookkeeping n' = bookkeeping n /\ trainingLoss n' = trainingLoss n /\
  gradient n' = gradient n.
Proof.
  unfold forward_and_loss, bookkeeping. unfold_se. simpl.
  pose proof (forward_layers_length (layers n) (inputs n)) as Hlen.
  destruct (forward_layers (inputs n) (layers n)) as [ls out]. simpl in *.
  destruct (vector_loss_func n) eqn:Ef; simpl; [| by rewrite Hlen, Ef].
  destruct (vector_loss_derivative n) eqn:Ed; simpl; by rewrite Hlen, Ef, Ed.
Qed.

(** X17: whatever its arguments and however it ends, [predict] leaves the
    input shape, the number of outputs, the recorded layer shapes, the
    number of layers, the installed loss pair, the loss history and the
    exposed gradient as they were. *)
Theorem predict_leaves_bookkeeping i t n :
  let n' := (predict i t n).2 in
  bookkeeping n' = bookkeeping n /\ trainingLoss n' = trainingLoss n /\
  gradient n' = gradient n.
Proof.
  cbv zeta. rewrite predict_unfold.
  destruct (take_arguments_state i t n) as (m & v & Hs & _).
  unfold bind. destruct (take_arguments i t n) as [[[]|e| |] n1]; simpl in *; subst n1;
    try done.
  destruct (forward_and_loss_frame (set_target v (set_inputs m n))) as (H1 & H2 & H3).
  by rewrite H1, H2, H3.
Qed.

(** *** The training loop *)

Lemma round_frame i t n n' :
  first_round i t n = (Ok tt, n') ->
  bookkeeping n' = bookkeeping n /\
  inputs n' = default (inputs n) i /\ target n' = default (target n) t.
Proof.
  unfold first_round. intros H.
  apply bind_inv_Ok in H as ([] & n1 & H1 & H).
  apply bind_inv_Ok in H as ([] & n2 & H2 & H).
  apply bind_inv_Ok in H as ([] & n3 & H3 & H).
  pose proof (backwardPass_Ok_nonempty _ _ H2) as Hne.
  destruct (backwardPass_eq n1 Hne) as (l' & ls' & Hw & Hb).
  rewrite Hb in H2. inversion H2; subst n2; clear H2.
  unfold record_loss, updateWeights, modify in *.
  inversion H3; subst n3; clear H3. inversion H; subst n'; clear H.
  pose proof (backward_walk_length (loss_deriv n1) (layers n1)) as Hlen.
  rewrite Hw in Hlen.
  apply predict_Ok_state in H1 as (f & d & Hf & Hd & ->).
  unfold bookkeeping in *. simpl in *.
  rewrite length_map. simpl. rewrite Hlen, forward_layers_length. done.
Qed.

Lemma train_loop_history stopTol maxIter fuel : forall num_iter n k n',
  train_loop fuel stopTol maxIter num_iter n = (Ok k, n') ->
  exists extra,
    trainingLoss n' = trainingLoss n ++ extra /\
    (length extra <= fuel)%nat /\
    (extra = [] -> scalar_loss n' = scalar_loss n) /\
    (extra <> [] -> last extra = Some (scalar_loss n')) /\
    ((0 <= num_iter)%Z -> (num_iter + Z.of_nat (length extra) < size_t_modulus)%Z ->
     k = (num_iter + Z.of_nat (length extra))%Z) /\
    bookkeeping n' = bookkeeping n /\ inputs n' = inputs n /\ target n' = target n.
Proof.
  induction fuel as [|fuel IH]; intros num_iter n k n' H;
    destruct ((num_iter <=? maxIter)%Z && scalar_gtb (scalar_loss n) stopTol) eqn:Hc.
  - simpl in H. unfold bind, get in H. by rewrite Hc in H.
  - rewrite train_loop_stop in H by done. inversion H; subst.
    exists []. rewrite app_nil_r. simpl. repeat split; try done; intros; lia.
  - rewrite train_loop_step in H by done.
    apply bind_inv_Ok in H as ([] & n1 & Hr & H).
    pose proof (training_round_history _ _ Hr) as Hh.
    destruct (round_frame None None _ _ Hr) as (Hb1 & Hi1 & Ht1).
    apply IH in H as (extra & He & Hlen & He0 & Hel & Hk & Hb & Hi & Ht).
    exists (scalar_loss n1 :: extra).
    rewrite He, Hh, <- app_assoc. simpl.
    split; [done |]. split; [lia |]. split; [done |].
    split; [| split; [| split; [| split]]].
    + intros _. destruct extra as [|x xs]; [by rewrite He0 | by apply Hel].
    + intros H0 Hlt. rewrite Z.mod_small in Hk by lia. rewrite Hk; lia.
    + by rewrite Hb.
    + by rewrite Hi.
    + by rewrite Ht.
  - rewrite train_loop_stop in H by done. inversion H; subst.
    exists []. rewrite app_nil_r. simpl. repeat split; try done; intros; lia.
Qed.

(** X18: when [train] returns, the loss history is the old one with the
    losses of the rounds appended: at least one entry and at most
    [maxIter + 1], the last of them the stored scalar loss.  If the loss is
    still above the tolerance (and [maxIter + 1] fits a [size_t]), exactly
    [maxIter + 1] rounds were run. *)
Theorem train_appends_to_history stopTol maxIter i t noprint n evs n' :
  train stopTol maxIter i t noprint n = (Ok evs, n') ->
  exists extra,
    trainingLoss n' = trainingLoss n ++ extra /\
    (1 <= length extra <= S (Z.to_nat maxIter))%nat /\
    last extra = Some (scalar_loss n') /\
    ((maxIter + 1 < size_t_modulus)%Z -> scalar_gtb (scalar_loss n') stopTol = true ->
     length extra = S (Z.to_nat maxIter)).
Proof.
  rewrite train_unfold. intros H.
  apply bind_inv_Ok in H as ([] & n1 & H1 & H).
  apply bind_inv_Ok in H as (k & n2 & Hloop & H).
  assert (n2 = n') as ->.
  { unfold bind, get, ret in H. destruct (_ && _); by inversion H. }
  clear H. pose proof (first_round_history _ _ _ _ H1) as Hh.
  pose proof (train_loop_exit _ _ _ _ _ _ _ Hloop) as Hexit.
  apply train_loop_history in Hloop as (extra & He & Hlen & He0 & Hel & Hk & _).
  exists (scalar_loss n1 :: extra). rewrite He, Hh, <- app_assoc. simpl.
  split; [done |]. split; [lia |]. split.
  - destruct extra as [|x xs]; [by rewrite He0 | by apply Hel].
  - intros Hmax Hg. rewrite Hg, andb_true_r in Hexit. apply Z.leb_gt in Hexit.
    assert (Hone : (1 < size_t_modulus)%Z) by reflexivity.
    rewrite Hk in Hexit by lia. lia.
Qed.

(** X19: what [train] prints: nothing, or the one warning carrying the
    final scalar loss; the warning appears only if [noprint] is false, and
    then the final loss is not above the tolerance. *)
Theorem train_warning_cases stopTol maxIter i t noprint n evs n' :
  train stopTol maxIter i t noprint n = (Ok evs, n') ->
  evs = [] \/
  (evs = [MaxIterWarning (scalar_loss n')] /\ noprint = false /\
   scalar_gtb (scalar_loss n') stopTol = false).
Proof.
  rewrite train_unfold. intros H.
  apply bind_inv_Ok in H as ([] & n1 & _ & H).
  apply bind_inv_Ok in H as (k & n2 & Hloop & H).
  apply train_loop_exit in Hloop.
  unfold bind, get, ret in H.
  destruct ((k =? maxIter)%Z && negb noprint) eqn:Hw; inversion H; subst; [| by left].
  right. apply andb_prop in Hw as [Hk Hn]. apply Z.eqb_eq in Hk. subst k.
  rewrite Z.leb_refl in Hloop. simpl in Hloop.
  split; [done |]. split; [by destruct noprint | done].
Qed.

(** X20: a [train] that returns has changed neither the input shape, the
    number of outputs, the recorded layer shapes, the number of layers nor
    the loss pair; the inputs and the target it leaves are the ones passed
    in, or the stored ones where none was passed. *)
Theorem train_keeps_bookkeeping stopTol maxIter i t noprint n evs n' :
  train stopTol maxIter i t noprint n = (Ok evs, n') ->
  bookkeeping n' = bookkeeping n /\
  inputs n' = default (inputs n) i /\ target n' = default (target n) t.
Proof.
  rewrite train_unfold. intros H.
  apply bind_inv_Ok in H as ([] & n1 & H1 & H).
  apply bind_inv_Ok in H as (k & n2 & Hloop & H).
  assert (n2 = n') as ->.
  { unfold bind, get, ret in H. destruct (_ && _); by inversion H. }
  apply round_frame in H1 as (Hb1 & Hi1 & Ht1).
  apply train_loop_history in Hloop as (extra & _ & _ & _ & _ & _ & Hb & Hi & Ht).
  by rewrite Hb, Hi, Ht.
Qed.

(** X21: as long as [maxIter + 1] fits a [size_t], the loop of [train]
    ends within the [maxIter] rounds the model allots it, so [train]
    returns, throws or meets undefined behaviour; it does not go on. *)
Theorem train_ends stopTol maxIter i t noprint n :
  (maxIter + 1 < size_t_modulus)%Z ->
  (train stopTol maxIter i t noprint n).1 <> OutOfFuel.
Proof. apply train_fuel. Qed.

(** *** Hyperparameters *)

Lemma setUpdateParams_loop_zip (argsList : list UpdateArgs) : forall (ls : list Layer),
  length argsList = length ls ->
  forall n (done : list Layer) (adone : list UpdateArgs),
    layers n = done ++ ls -> length adone = length done ->
    setUpdateParams_loop (length argsList) (length done) (adone ++ argsList) n
    = (Ok tt, set_layers (done ++ zip_with Layer_setUpdateArgs argsList ls) n).
Proof.
  induction argsList as [|a args IH]; intros ls Hlen n done adone Hl Hd.
  - destruct ls; [| done]. simpl. unfold ret.
    rewrite app_nil_r in *. by rewrite <- Hl, set_layers_same.
  - destruct ls as [|l ls]; [done |]. simpl in Hlen. simpl. unfold_se.
    assert (H1 : layers n !! length done = Some l).
    { rewrite Hl, lookup_app_r by lia. by rewrite Nat.sub_diag. }
    assert (H2 : (adone ++ a :: args) !! length done = Some a).
    { rewrite lookup_app_r by lia. by rewrite Hd, Nat.sub_diag. }
    rewrite H1, H2. simpl.
    assert (Hd' : length (done ++ [Layer_setUpdateArgs a l]) = S (length done))
      by (rewrite length_app; simpl; lia).
    specialize (IH ls ltac:(lia)
                  (set_layers (<[length done := Layer_setUpdateArgs a l]> (layers n)) n)
                  (done ++ [Layer_setUpdateArgs a l]) (adone ++ [a])).
    rewrite Hd', <- !app_assoc in IH. simpl in IH. rewrite IH.
    + done.
    + simpl. rewrite Hl.
      replace (length done) with (length done + 0)%nat at 1 by lia.
      by rewrite insert_app_r.
    + rewrite length_app. simpl. lia.
Qed.

(** X22: [updateWeights] with one argument tuple per layer: a list of
    another length makes it throw before any layer is configured or updated,
    leaving the network as it was; a list of the right length gives every
    layer its own tuple and then updates it, in order.  With one tuple for
    all, every layer gets that tuple and is then updated. *)
Theorem updateWeights_with_arguments n :
  (forall argsList, length argsList <> length (layers n) ->
     updateWeights_list argsList n
     = (Raise (ThrowMsg "Error: must provide exactly one args tuple for each layer."), n)) /\
  (forall argsList, length argsList = length (layers n) ->
     updateWeights_list argsList n
     = (Ok tt, set_layers (map Layer_updateWeights
                             (zip_with Layer_setUpdateArgs argsList (layers n))) n)) /\
  (forall args,
     updateWeights_args args n
     = (Ok tt, set_layers (map (fun l => Layer_updateWeights (Layer_setUpdateParams args l))
                             (layers n)) n)).
Proof.
  split; [| split].
  - intros argsList Hne. unfold updateWeights_list, setUpdateParams_list. unfold_se.
    by destruct (Nat.eqb_spec (length argsList) (length (layers n))).
  - intros argsList Hlen. unfold updateWeights_list, setUpdateParams_list.
    unfold bind at 1 2. unfold get.
    destruct (Nat.eqb_spec (length argsList) (length (layers n))); [| done]. simpl.
    pose proof (setUpdateParams_loop_zip argsList (layers n) Hlen n [] [] eq_refl eq_refl) as Hz.
    simpl in Hz. by rewrite Hz.
  - intros args. unfold updateWeights_args, setUpdateParams, updateWeights. unfold_se.
    simpl. by rewrite map_map.
Qed.

(** *** Errors and gradients per layer *)

(** X23: after a [backwardPass] that returns, [getErrGradientList] has one
    pair per layer; the gradient of its first pair is the network's
    gradient, and each pair but the last is the error and gradient of the
    layer's backward step on the error term in the pair after it. *)
Theorem getErrGradientList_after_backwardPass n n' :
  backwardPass n = (Ok tt, n') ->
  length (getErrGradientList n') = length (layers n) /\
  snd <$> head (getErrGradientList n') = Some (getGradient n') /\
  (forall i l next, layers n !! i = Some l ->
      getErrGradientList n' !! S i = Some next ->
      getErrGradientList n' !! i
      = Some (Layer_getErr (Layer_backwardPass_err next.1 l),
              Layer_getGradient (Layer_backwardPass_err next.1 l))).
Proof.
  intros H. pose proof (backwardPass_Ok_nonempty _ _ H) as Hne.
  destruct (backwardPass_eq n Hne) as (l' & ls' & Hw & Hb).
  rewrite Hb in H. inversion H; subst n'; clear H Hb.
  unfold getErrGradientList, getGradient. simpl layers. simpl gradient.
  rewrite <- Hw. split; [| split].
  - by rewrite length_map, backward_walk_length.
  - by rewrite Hw.
  - intros i l next Hi Hn.
    change (map ?f ?xs) with (f <$> xs) in *.
    rewrite list_lookup_fmap in Hn. rewrite list_lookup_fmap.
    destruct (backward_walk (loss_deriv n) (layers n) !! S i) as [nl|] eqn:E; [| done].
    simpl in Hn. inversion Hn; subst next. simpl.
    by rewrite (backward_walk_lookup _ _ _ _ _ Hi E).
Qed.
End Props.
End MoreProps.

(** ** The further properties on concrete data *)
Module MoreScenario.
Import Net NetTuning Dense DenseTuning.

(** X1, on the two-layer network with the input (1, 2) and target 5. *)
Lemma predict_chains_witness :
  let n' := (predict (Some input_2x1) (Some [5%Q]) two_layer_fresh).2 in
  predict (Some input_2x1) (Some [5%Q]) two_layer_fresh = (Ok tt, n') /\
  length (layers n') = length (layers two_layer_fresh) /\
  outputs n' = vec_of_mat (default (inputs n') (Layer_getOutputs <$> last (layers n'))).
Proof.
  intros n'.
  assert (H : predict (Some input_2x1) (Some [5%Q]) two_layer_fresh = (Ok tt, n'))
    by (vm_compute; reflexivity).
  split; [exact H |].
  destruct (MoreProps.predict_chains_layers _ _ _ _ H) as (H1 & _ & H3).
  split; [exact H1 | exact H3].
Defined.

(** X2, on the scenario of section 8. *)
Lemma predict_loss_witness :
  let n' := (predict None None scenario).2 in
  predict None None scenario = (Ok tt, n') /\
  exists f d,
    vector_loss_func scenario = Some f /\ vector_loss_derivative scenario = Some d /\
    inputs n' = inputs scenario /\ target n' = target scenario /\
    resid n' = vec_sub (outputs n') (target n') /\
    scalar_loss n' = f (outputs n') (target n') /\
    loss_deriv n' = d (outputs n') (target n').
Proof.
  intros n'.
  assert (H : predict None None scenario = (Ok tt, n')) by (vm_compute; reflexivity).
  split; [exact H |].
  exact (MoreProps.predict_loss_postcondition None None scenario n' H).
Defined.

(** X3, on the scenario of section 8. *)
Lemma predict_L2_witness :
  let n' := (predict None None scenario).2 in
  vector_loss_func scenario = Some L2_loss /\
  vector_loss_derivative scenario = Some L2_loss_derivative /\
  predict None None scenario = (Ok tt, n') /\
  loss_deriv n' = resid n' /\
  scalar_loss n' = scalar_half (vec_dot (resid n') (resid n')).
Proof.
  intros n'.
  assert (Hf : vector_loss_func scenario = Some L2_loss) by reflexivity.
  assert (Hd : vector_loss_derivative scenario = Some L2_loss_derivative) by reflexivity.
  assert (H : predict None None scenario = (Ok tt, n')) by (vm_compute; reflexivity).
  split; [exact Hf |]. split; [exact Hd |]. split; [exact H |].
  exact (MoreProps.predict_L2_gradient_is_residual None None scenario n' Hf Hd H).
Defined.

(** X6, with the name "L2" and the registries as the program starts. *)
Lemma known_loss_name_witness :
  VECTOR_LOSS initial_globals !! "L2" = Some (Some L2_loss) /\
  VECTOR_LOSS_DERIVATIVE initial_globals !! "L2" = Some (Some L2_loss_derivative) /\
  (let r := setLossFunc "L2" (initial_globals, scenario) in
   r.1 = Ok tt /\ r.2.1 = initial_globals /\
   vector_loss_derivative r.2.2 = Some L2_loss_derivative).
Proof.
  assert (Hf : VECTOR_LOSS initial_globals !! "L2" = Some (Some L2_loss))
    by (vm_compute; reflexivity).
  assert (Hd : VECTOR_LOSS_DERIVATIVE initial_globals !! "L2" = Some (Some L2_loss_derivative))
    by (vm_compute; reflexivity).
  split; [exact Hf |]. split; [exact Hd |].
  exact (proj2 (proj2 (MoreProps.known_loss_name_is_looked_up
                         initial_globals "L2" _ _ Hf Hd)) scenario).
Defined.

(** X9, with a 2x2 matrix for the network whose input shape is 1x1. *)
Lemma setInputs_override_witness :
  let m := mkQMat 2 2 [1%Q; 2%Q; 3%Q; 4%Q] in
  layers fresh = [new (1, 1)%Z 1%Z "identity"] /\
  layer_input_shapes fresh = [(1, 1)%Z] /\
  exists n',
    setInputs m true fresh = (Ok tt, n') /\
    inputs n' = m /\ input_shape n' = (2, 2)%Z /\
    layer_input_shapes n' = [(2, 2)%Z] /\
    num_outputs n' = num_outputs fresh /\
    setInputs m false n' = (Ok tt, n').
Proof.
  intros m.
  assert (Hl : layers fresh = [new (1, 1)%Z 1%Z "identity"]) by reflexivity.
  assert (Hs : layer_input_shapes fresh = [(1, 1)%Z]) by reflexivity.
  split; [exact Hl |]. split; [exact Hs |].
  destruct (@MoreProps.setInputs_override_adopts_shape kernel layer m fresh _ _ _ _ Hl Hs)
    as (n' & H1 & H2 & H3 & _ & H5 & H6 & H7).
  exists n'. repeat split; assumption.
Defined.

(** X11, appending the wide layer twice to the fresh network. *)
Lemma appendLayers_twice_witness :
  layer_input_shapes fresh <> [] /\
  (appendLayers [wide_layer] ;; appendLayers [wide_layer])%se fresh
  = appendLayers ([wide_layer] ++ [wide_layer]) fresh.
Proof.
  assert (H : layer_input_shapes fresh <> []) by (vm_compute; discriminate).
  split; [exact H |].
  exact (@MoreProps.appendLayers_twice kernel layer [wide_layer] [wide_layer] fresh H).
Defined.

(** X12, inserting the wide layer in front of the fresh network's layer. *)
Lemma insertLayer_lookup_witness :
  (0 <= length (layers fresh))%nat /\ shapes_in_sync fresh /\ first_shape_ok fresh /\
  exists n',
    insertLayer 0 wide_layer fresh = (Ok tt, n') /\
    length (layers n') = S (length (layers fresh)) /\
    layers n' !! 0%nat = Some wide_layer.
Proof.
  assert (Hle : (0 <= length (layers fresh))%nat) by (vm_compute; lia).
  assert (Hs : shapes_in_sync fresh) by (vm_compute; reflexivity).
  assert (Hf : first_shape_ok fresh) by (vm_compute; reflexivity).
  split; [exact Hle |]. split; [exact Hs |]. split; [exact Hf |].
  destruct (@MoreProps.insertLayer_lookup kernel layer 0%nat wide_layer fresh Hle Hs Hf)
    as (n' & H1 & H2 & H3 & _).
  exists n'. repeat split; assumption.
Defined.

(** X13, on the two-layer network. *)
Lemma setLayers_identity_witness :
  shapes_in_sync two_layer_fresh /\ first_shape_ok two_layer_fresh /\
  output_count_recorded two_layer_fresh /\
  setLayers (getLayers two_layer_fresh) two_layer_fresh = (Ok tt, two_layer_fresh).
Proof.
  assert (Hs : shapes_in_sync two_layer_fresh) by (vm_compute; reflexivity).
  assert (Hf : first_shape_ok two_layer_fresh) by (vm_compute; reflexivity).
  assert (Ho : output_count_recorded two_layer_fresh) by (vm_compute; reflexivity).
  split; [exact Hs |]. split; [exact Hf |]. split; [exact Ho |].
  exact (MoreProps.setLayers_getLayers_identity two_layer_fresh Hs Hf Ho).
Defined.

(** X14, setting the weight 2 on the fresh one-layer network. *)
Lemma setWeights_then_getWeights_witness :
  let w := mkQMat 1 1 [2%Q] in
  let l := new (1, 1)%Z 1%Z "identity" in
  Forall3 (fun w l l' => Layer_setWeights w l = Ok l') [w] (layers fresh) [with_weights w l] /\
  setWeights [w] fresh = (Ok tt, set_layers [with_weights w l] fresh) /\
  getWeights (setWeights [w] fresh).2 = [w].
Proof.
  intros w l.
  assert (HF : Forall3 (fun w l l' => Layer_setWeights w l = Ok l')
                 [w] (layers fresh) [with_weights w l]).
  { change (layers fresh) with [l]. repeat constructor. }
  split; [exact HF |].
  destruct (@MoreProps.setWeights_then_getWeights kernel layer [w] fresh _ HF) as [H1 H2].
  split; [exact H1 |]. apply H2. repeat constructor.
Defined.

(** X15, on the two-layer network: the first layer takes its 3x2 matrix,
    the second is handed a 5x5 matrix and throws. *)
Lemma setWeights_partial_witness :
  let w1 := Dense.constant 3 2 2%Q in
  let bad := Dense.constant 5 5 0%Q in
  let l1 := new (2, 1)%Z 3%Z "identity" in
  let l2 := new (3, 1)%Z 1%Z "identity" in
  layers two_layer_fresh = [l1] ++ l2 :: [] /\
  Layer_setWeights bad l2
  = Raise (ThrowMsg "Error: weight matrix does not match the layer's shape") /\
  setWeights ([w1] ++ bad :: []) two_layer_fresh
  = (Raise (ThrowMsg "Error: weight matrix does not match the layer's shape"),
     set_layers ([with_weights w1 l1] ++ l2 :: []) two_layer_fresh).
Proof.
  intros w1 bad l1 l2.
  assert (Hl : layers two_layer_fresh = [l1] ++ l2 :: []) by reflexivity.
  assert (He : Layer_setWeights bad l2
               = Raise (ThrowMsg "Error: weight matrix does not match the layer's shape"))
    by reflexivity.
  split; [exact Hl |]. split; [exact He |].
  apply (@MoreProps.setWeights_keeps_partial_update kernel layer two_layer_fresh
           [w1] [] bad [l1] [with_weights w1 l1] [] l2 _ Hl eq_refl); [| exact He].
  repeat constructor.
Defined.

(** X16, on the two-layer network. *)
Lemma setWeights_identity_witness :
  Forall (fun l => Layer_setWeights (Layer_getWeights l) l = Ok l) (layers two_layer_fresh) /\
  setWeights (getWeights two_layer_fresh) two_layer_fresh = (Ok tt, two_layer_fresh).
Proof.
  assert (HF : Forall (fun l => Layer_setWeights (Layer_getWeights l) l = Ok l)
                 (layers two_layer_fresh)).
  { change (layers two_layer_fresh) with two_layers. repeat constructor. }
  split; [exact HF |].
  exact (@MoreProps.setWeights_getWeights_identity kernel layer two_layer_fresh HF).
Defined.

(** X18 to X20, on the scenario of section 8 with maximum 1 and
    tolerance 0. *)
Lemma train_history_witness :
  let r := train 0%Q 1 None None false scenario in
  r = (Ok [], r.2) /\
  exists extra,
    trainingLoss r.2 = trainingLoss scenario ++ extra /\
    (1 <= length extra <= S (Z.to_nat 1))%nat /\
    last extra = Some (scalar_loss r.2).
Proof.
  intros r.
  assert (H : r = (Ok [], r.2)) by (vm_compute; reflexivity).
  split; [exact H |].
  destruct (@MoreProps.train_appends_to_history kernel layer
              0%Q 1%Z None None false scenario [] r.2 H) as (extra & H1 & H2 & H3 & _).
  exists extra. repeat split; try assumption; apply H2.
Defined.

Lemma train_warning_cases_witness :
  let r := train 1%Q 2 None None false scenario in
  r = (Ok [MaxIterWarning (scalar_loss r.2)], r.2) /\
  ([MaxIterWarning (scalar_loss r.2)] = [] \/
   ([MaxIterWarning (scalar_loss r.2)] = [MaxIterWarning (scalar_loss r.2)] /\
    false = false /\ scalar_gtb (scalar_loss r.2) 1%Q = false)).
Proof.
  intros r.
  assert (H : r = (Ok [MaxIterWarning (scalar_loss r.2)], r.2)) by (vm_compute; reflexivity).
  split; [exact H |].
  exact (@MoreProps.train_warning_cases kernel layer 1%Q 2%Z None None false scenario _ r.2 H).
Defined.

Lemma train_bookkeeping_witness :
  let r := train 0%Q 1 None None false scenario in
  r = (Ok [], r.2) /\
  bookkeeping r.2 = bookkeeping scenario /\
  inputs r.2 = inputs scenario /\ target r.2 = target scenario.
Proof.
  intros r.
  assert (H : r = (Ok [], r.2)) by (vm_compute; reflexivity).
  split; [exact H |].
  exact (@MoreProps.train_keeps_bookkeeping kernel layer
           0%Q 1%Z None None false scenario [] r.2 H).
Defined.

(** X21, with maximum 1. *)
Lemma train_ends_witness :
  (1 + 1 < size_t_modulus)%Z /\
  (train 0%Q 1 None None false scenario).1 <> OutOfFuel.
Proof.
  assert (H : (1 + 1 < size_t_modulus)%Z) by reflexivity.
  split; [exact H |].
  exact (@MoreProps.train_ends kernel layer 0%Q 1%Z None None false scenario H).
Defined.

(** X23, on the two-layer network after its forward pass. *)
Lemma getErrGradientList_witness :
  let n' := (backwardPass two_layer_net).2 in
  backwardPass two_layer_net = (Ok tt, n') /\
  length (getErrGradientList n') = length (layers two_layer_net) /\
  snd <$> head (getErrGradientList n') = Some (getGradient n').
Proof.
  intros n'.
  assert (H : backwardPass two_layer_net = (Ok tt, n')) by (vm_compute; reflexivity).
  split; [exact H |].
  destruct (@MoreProps.getErrGradientList_after_backwardPass kernel layer
              two_layer_net n' H) as (H1 & H2 & _).
  split; [exact H1 | exact H2].
Defined.
End MoreScenario.
